(** * RBAC guard procedures of the api-helpers package

    A shallow embedding of the authorization middleware chain
    ([protectedProcedure], [adminProcedure], [createPermissionProcedure]),
    of the RBAC schema it reads, and of the two queries of the [cms]
    router ([checkAccess], [listRoles]).

    Asynchronous code is modelled in a small writer/error monad: a
    computation yields the chronological list of external calls it made
    (session lookups and database selects) together with either a thrown
    value or a result. *)

From Stdlib Require Import String List Bool ZArith Lia.
Import ListNotations.
Local Open Scope string_scope.

(* ================================================================== *)
(** ** The RBAC schema (shared/database/schema/rbac.ts)                *)
(* ================================================================== *)

Module Schema.

(** Row of the [roles] table. *)
Record Role := mkRole {
  role_id : string;
  role_name : string;
  role_description : option string;
  role_createdAt : Z;
  role_updatedAt : Z
}.

(** Row of the [permissions] table. *)
Record Permission := mkPermission {
  perm_id : string;
  perm_name : string;
  perm_resource : string;
  perm_action : string;
  perm_description : option string;
  perm_createdAt : Z
}.

(** Row of the [role_permissions] junction table. *)
Record RolePermission := mkRolePermission {
  rp_roleId : string;
  rp_permissionId : string;
  rp_createdAt : Z
}.

(** Row of the [user_roles] junction table. *)
Record UserRole := mkUserRole {
  ur_userId : string;
  ur_roleId : string;
  ur_createdAt : Z
}.

(** The four relations the guards read. *)
Record Tables := mkTables {
  roles : list Role;
  permissions : list Permission;
  rolePermissions : list RolePermission;
  userRoles : list UserRole
}.

Module ROLE_NAMES.
Definition SUPER_ADMIN : string := "super_admin".
Definition EDITOR : string := "editor".
Definition CONTENT_MANAGER : string := "content_manager".
Definition CUSTOMER : string := "customer".
End ROLE_NAMES.

Definition ADMIN_ROLES : list string :=
  [ROLE_NAMES.SUPER_ADMIN; ROLE_NAMES.EDITOR; ROLE_NAMES.CONTENT_MANAGER].

End Schema.

(* ================================================================== *)
(** ** Array helpers of the host language                              *)
(* ================================================================== *)

(** [Array.prototype.includes] on an array of strings. *)
Definition includes (xs : list string) (x : string) : bool :=
  existsb (String.eqb x) xs.

(** [Array.prototype.some]. *)
Definition some {A : Type} (xs : list A) (f : A -> bool) : bool :=
  existsb f xs.

(* ================================================================== *)
(** ** Errors, external calls and the asynchronous monad               *)
(* ================================================================== *)

Inductive TRPC_ERROR_CODE := UNAUTHORIZED | FORBIDDEN.

Record TRPCError := mkTRPCError {
  code : TRPC_ERROR_CODE;
  message : option string
}.

(** A select statement sent to the database, identified by the place
    that builds it and by its parameters. *)
Inductive Query :=
| SelectRoleNames (userId : string)
| SelectRoleRecords (userId : string)
| SelectPermissionGrant (userId : string) (permissionName : string)
| SelectAllRoles.

(** What a rejected promise carries: an error object built by the guard
    itself, whatever the database driver threw, or whatever the auth
    service threw. *)
Inductive Thrown :=
| ThrownTRPC (e : TRPCError)
| ThrownByStore (reason : string)
| ThrownByAuth (reason : string).

Inductive Effect :=
| GetSession (headers : string)
| DbSelect (q : Query).

Definition Async (A : Type) : Type := (list Effect * (Thrown + A))%type.

Definition resolve {A : Type} (a : A) : Async A := ([], inr a).

Definition throw {A : Type} (e : Thrown) : Async A := ([], inl e).

Definition await {A B : Type} (c : Async A) (k : A -> Async B) : Async B :=
  match c with
  | (tr, inl e) => (tr, inl e)
  | (tr, inr a) => let (tr', r) := k a in ((tr ++ tr')%list, r)
  end.

Notation "x <- c ;; k" := (await c (fun x => k))
  (at level 61, c at next level, right associativity).

Definition trace {A : Type} (c : Async A) : list Effect := fst c.

Definition outcome {A : Type} (c : Async A) : Thrown + A := snd c.

(* ================================================================== *)
(** ** Request context (shared/api-helpers/src/context.ts)             *)
(* ================================================================== *)

Record User := mkUser {
  id : string;
  email : string;
  name : string
}.

Record Session := mkSession { user : User }.

Record Request := mkRequest { headers : string }.

(** [getSession] returns a promise: it rejects (with a reason) or
    resolves with a session or with [null]. *)
Record AuthService := mkAuthService {
  getSession : string -> string + option Session
}.

(** The database handle: the current content of the tables, and for each
    statement whether the driver rejects it (and with what). *)
Record DB := mkDB {
  tables : Schema.Tables;
  fault : Query -> option string
}.

Record TRPCContext := mkTRPCContext {
  req : Request;
  db : DB;
  auth : AuthService
}.

(** [{ session, ...ctx }] *)
Record ProtectedContext := mkProtectedContext {
  session : Session;
  base : TRPCContext
}.

(** [{ ...ctx, userRoles: userRoleNames }] *)
Record AdminContext := mkAdminContext {
  inherited : ProtectedContext;
  userRoles : list string
}.

(** [await ctx.auth.getSession(ctx.req.headers)] *)
Definition callGetSession (a : AuthService) (h : string)
  : Async (option Session) :=
  ([GetSession h],
   match getSession a h with
   | inl reason => inl (ThrownByAuth reason)
   | inr session => inr session
   end).

(** Running a select: one statement goes to the store; it either rejects
    or yields the rows computed from the current tables. *)
Definition execute {A : Type} (d : DB) (q : Query)
    (rows : Schema.Tables -> A) : Async A :=
  ([DbSelect q],
   match fault d q with
   | Some reason => inl (ThrownByStore reason)
   | None => inr (rows (tables d))
   end).

(* ================================================================== *)
(** ** The select statements                                           *)
(* ================================================================== *)

Section Joins.
Import Schema.
Variable T : Tables.

(** [from(userRoles).innerJoin(roles, eq(roles.id, userRoles.roleId))] *)
Definition userRoles_join_roles : list (UserRole * Role) :=
  flat_map (fun ur =>
    map (fun r => (ur, r))
        (filter (fun r => role_id r =? ur_roleId ur) (Schema.roles T)))
    (Schema.userRoles T).

(** [... .where(eq(userRoles.userId, uid))] with
    [select({ roleName: roles.name, roleId: roles.id })] *)
Definition selectRoleRecords (uid : string) : list (string * string) :=
  map (fun p => (role_name (snd p), role_id (snd p)))
      (filter (fun p => ur_userId (fst p) =? uid) userRoles_join_roles).

(** [... .where(eq(userRoles.userId, uid))] with
    [select({ roleName: roles.name })] *)
Definition selectRoleNames (uid : string) : list string :=
  map (fun p => role_name (snd p))
      (filter (fun p => ur_userId (fst p) =? uid) userRoles_join_roles).

(** The four-table join of [createPermissionProcedure]. *)
Definition permission_join
  : list (UserRole * Role * RolePermission * Permission) :=
  flat_map (fun urr : UserRole * Role =>
    flat_map (fun rp =>
      map (fun pm => (urr, rp, pm))
          (filter (fun pm => perm_id pm =? rp_permissionId rp)
                  (Schema.permissions T)))
      (filter (fun rp => rp_roleId rp =? role_id (snd urr))
              (Schema.rolePermissions T)))
    userRoles_join_roles.

(** [select({ id: userRoles.userId }) ... .where(and(eq(userRoles.userId,
    uid), eq(permissions.name, requiredPermission))).limit(1)] *)
Definition selectPermissionGrant (uid requiredPermission : string)
  : list string :=
  firstn 1
    (map (fun row => ur_userId (fst (fst (fst row))))
      (filter (fun row =>
                 (ur_userId (fst (fst (fst row))) =? uid)
                 && (perm_name (snd row) =? requiredPermission))
              permission_join)).

(** [select({ id, name, description }).from(roles)] *)
Definition selectAllRoles : list (string * string * option string) :=
  map (fun r => (role_id r, role_name r, role_description r))
      (Schema.roles T).

End Joins.

(* ================================================================== *)
(** ** Procedures and middleware (shared/api-helpers/src/index.ts)     *)
(* ================================================================== *)

(** A middleware receives its context and the continuation [next]. *)
Definition Middleware (C D : Type) : Type :=
  forall R : Type, C -> (D -> Async R) -> Async R.

(** A procedure builder is the middleware chain from the base context. *)
Definition Procedure (C : Type) : Type := Middleware TRPCContext C.

(** [t.procedure] *)
Definition publicProcedure : Procedure TRPCContext :=
  fun R ctx next => next ctx.

(** [p.use(mw)] *)
Definition use {C D : Type} (p : Procedure C) (mw : Middleware C D)
  : Procedure D :=
  fun R ctx next => p R ctx (fun c => mw R c next).

(** [p.query(resolver)] *)
Definition query {C R : Type} (p : Procedure C) (resolver : C -> Async R)
  : TRPCContext -> Async R :=
  fun ctx => p R ctx resolver.

Definition protectedProcedure : Procedure ProtectedContext :=
  use publicProcedure (fun R ctx next =>
    session <- callGetSession (auth ctx) (headers (req ctx)) ;;
    match session with
    | None => throw (ThrownTRPC (mkTRPCError UNAUTHORIZED None))
    | Some s => next (mkProtectedContext s ctx)
    end).

Definition adminProcedure : Procedure AdminContext :=
  use protectedProcedure (fun R ctx next =>
    userRoleNames <-
      execute (db (base ctx))
              (SelectRoleNames (id (user (session ctx))))
              (fun T => selectRoleNames T (id (user (session ctx)))) ;;
    let isAdmin :=
      some userRoleNames (fun roleName => includes Schema.ADMIN_ROLES roleName) in
    if negb isAdmin then
      throw (ThrownTRPC (mkTRPCError FORBIDDEN (Some "Admin access required")))
    else
      next (mkAdminContext ctx userRoleNames)).

Definition createPermissionProcedure (requiredPermission : string)
  : Procedure AdminContext :=
  use adminProcedure (fun R ctx next =>
    if includes (userRoles ctx) "super_admin" then
      next ctx
    else
      hasPermission <-
        execute (db (base (inherited ctx)))
                (SelectPermissionGrant
                   (id (user (session (inherited ctx)))) requiredPermission)
                (fun T => selectPermissionGrant T
                   (id (user (session (inherited ctx)))) requiredPermission) ;;
      if (length hasPermission =? 0)%nat then
        throw (ThrownTRPC (mkTRPCError FORBIDDEN
                 (Some ("Permission '" ++ requiredPermission ++ "' required"))))
      else
        next ctx).

(* ================================================================== *)
(** ** The cms router (packages/cms/src/router.ts)                     *)
(* ================================================================== *)

Module cms.

Record AccessReport := mkAccessReport {
  isAdmin : bool;
  roles : list string
}.

Definition checkAccess : TRPCContext -> Async AccessReport :=
  query protectedProcedure (fun ctx =>
    userRoleRecords <-
      execute (db (base ctx))
              (SelectRoleRecords (id (user (session ctx))))
              (fun T => selectRoleRecords T (id (user (session ctx)))) ;;
    let userRoleNames := map fst userRoleRecords in
    let isAdmin :=
      some userRoleNames
           (fun roleName => includes Schema.ADMIN_ROLES roleName) in
    resolve (mkAccessReport isAdmin userRoleNames)).

Definition listRoles
  : TRPCContext -> Async (list (string * string * option string)) :=
  query protectedProcedure (fun ctx =>
    allRoles <- execute (db (base ctx)) SelectAllRoles selectAllRoles ;;
    resolve allRoles).

End cms.

(* ================================================================== *)
(** ** Observing a guard                                               *)
(* ================================================================== *)

(** The middleware chain run on its own: the continuation resolves at
    once with the context it is handed. *)
Definition guard {C : Type} (p : Procedure C) (ctx : TRPCContext) : Async C :=
  p C ctx resolve.

(** The chain reaches its continuation. *)
Definition allows {C : Type} (p : Procedure C) (ctx : TRPCContext) : bool :=
  match outcome (guard p ctx) with
  | inr _ => true
  | inl _ => false
  end.

Inductive GuardKind :=
| ProtectedGuard
| AdminGuard
| PermissionGuard (requiredPermission : string).

Definition runGuard (k : GuardKind) (ctx : TRPCContext) : Async unit :=
  match k with
  | ProtectedGuard => protectedProcedure unit ctx (fun _ => resolve tt)
  | AdminGuard => adminProcedure unit ctx (fun _ => resolve tt)
  | PermissionGuard p =>
      createPermissionProcedure p unit ctx (fun _ => resolve tt)
  end.

Definition Unauthenticated : Thrown :=
  ThrownTRPC (mkTRPCError UNAUTHORIZED None).

Definition ForbiddenNotAdmin : Thrown :=
  ThrownTRPC (mkTRPCError FORBIDDEN (Some "Admin access required")).

Definition ForbiddenMissingPermission (permissionName : string) : Thrown :=
  ThrownTRPC (mkTRPCError FORBIDDEN
    (Some ("Permission '" ++ permissionName ++ "' required"))).

(** The same request served from another content of the tables. *)
Definition withTables (ctx : TRPCContext) (T : Schema.Tables) : TRPCContext :=
  mkTRPCContext (req ctx) (mkDB T (fault (db ctx))) (auth ctx).

(** The call ended at the session lookup: one external call, the
    session lookup, and the UNAUTHORIZED error. *)
Definition stopsAtSession {A : Type} (ctx : TRPCContext) (c : Async A) : Prop :=
  c = ([GetSession (headers (req ctx))],
       inl (ThrownTRPC (mkTRPCError UNAUTHORIZED None))).

(** A middleware is tail-calling when running it with a continuation is
    running it alone and then handing the context over. *)
Definition tailCalling {C D : Type} (mw : Middleware C D) : Prop :=
  forall (R : Type) (c : C) (next : D -> Async R),
    mw R c next = await (mw D c resolve) next.

(* ================================================================== *)
(** ** The relational reading of the store                             *)
(* ================================================================== *)

Section Relations.
Import Schema.
Variable T : Tables.

(** Membership in the admin role set, spelled out. *)
Definition isAdminRole (roleName : string) : Prop :=
  roleName = "super_admin" \/ roleName = "editor"
  \/ roleName = "content_manager".

(** The principal holds a role of that name:
    a UserRole row joined to its Role row. *)
Definition holdsRole (uid roleName : string) : Prop :=
  exists ur r,
    In ur (Schema.userRoles T) /\ In r (Schema.roles T) /\
    role_id r = ur_roleId ur /\ ur_userId ur = uid /\
    role_name r = roleName.

(** A UserRole -> Role -> RolePermission -> Permission chain for the
    principal that ends in a permission of that name. *)
Definition grantChain (uid permissionName : string) : Prop :=
  exists ur r rp pm,
    In ur (Schema.userRoles T) /\ In r (Schema.roles T) /\
    In rp (Schema.rolePermissions T) /\ In pm (Schema.permissions T) /\
    role_id r = ur_roleId ur /\ rp_roleId rp = role_id r /\
    perm_id pm = rp_permissionId rp /\
    ur_userId ur = uid /\ perm_name pm = permissionName.

(** The role with that id is granted the permission of that name. *)
Definition roleGrants (roleId permissionName : string) : bool :=
  existsb (fun rp =>
    (rp_roleId rp =? roleId)
    && existsb (fun pm => (perm_id pm =? rp_permissionId rp)
                          && (perm_name pm =? permissionName))
               (Schema.permissions T))
    (Schema.rolePermissions T).

(** The principal is assigned the (existing) role with that id. *)
Definition assigned (uid roleId : string) : bool :=
  existsb (fun ur => (ur_userId ur =? uid) && (ur_roleId ur =? roleId))
          (Schema.userRoles T)
  && existsb (fun r => role_id r =? roleId) (Schema.roles T).

(** The assignment row yields the permission: its role is granted it, or
    its role is the bypass role. *)
Definition derives (ur : UserRole) (permissionName : string) : bool :=
  existsb (fun r =>
    (role_id r =? ur_roleId ur)
    && ((role_name r =? "super_admin")
        || roleGrants (role_id r) permissionName))
    (Schema.roles T).

(** Among the principal's assignment rows, only the one to [roleId]
    yields the permission. *)
Definition solelyDerivedFrom (uid roleId permissionName : string) : bool :=
  forallb (fun ur =>
    implb ((ur_userId ur =? uid) && derives ur permissionName)
          (ur_roleId ur =? roleId))
    (Schema.userRoles T).

(** [DELETE FROM user_roles WHERE user_id = uid AND role_id = roleId] *)
Definition revokeUserRole (uid roleId : string) : Tables :=
  mkTables (Schema.roles T) (Schema.permissions T) (Schema.rolePermissions T)
    (filter (fun ur => negb ((ur_userId ur =? uid) && (ur_roleId ur =? roleId)))
            (Schema.userRoles T)).

End Relations.

(* ================================================================== *)
(** ** A seeded store used for concrete runs                           *)
(* ================================================================== *)

Module Seed.
Import Schema.

Definition seedRoles : list Role :=
  [ mkRole "role_super" "super_admin" (Some "Full system access") 0 0;
    mkRole "role_editor" "editor" (Some "Content and product management") 0 0;
    mkRole "role_content" "content_manager" (Some "Limited content editing") 0 0;
    mkRole "role_customer" "customer" (Some "Regular user account") 0 0;
    mkRole "role_support" "support" None 0 0 ].

Definition seedPermissions : list Permission :=
  [ mkPermission "p1" "cms.pages.create" "cms.pages" "create" None 0;
    mkPermission "p2" "media.upload" "media" "upload" None 0;
    mkPermission "p3" "orders.view" "orders" "view" None 0;
    mkPermission "p4" "orders.update" "orders" "update" None 0;
    mkPermission "p5" "products.delete" "products" "delete" None 0 ].

Definition seedRolePermissions : list RolePermission :=
  [ mkRolePermission "role_editor" "p1" 0;
    mkRolePermission "role_content" "p2" 0;
    mkRolePermission "role_customer" "p3" 0;
    mkRolePermission "role_support" "p4" 0 ].

Definition seedUserRoles : list UserRole :=
  [ mkUserRole "alice" "role_super" 1;
    mkUserRole "bob" "role_editor" 2;
    mkUserRole "bob" "role_content" 3;
    mkUserRole "carol" "role_customer" 4;
    mkUserRole "carol" "role_support" 5;
    mkUserRole "erin" "role_editor" 6 ].

Definition store : Tables :=
  mkTables seedRoles seedPermissions seedRolePermissions seedUserRoles.

Definition sessionOf (uid : string) : Session :=
  mkSession (mkUser uid (uid ++ "@example.com") uid).

(** Credentials are the header string ["session=<user id>"]. *)
Definition authService : AuthService :=
  mkAuthService (fun h =>
    if prefix "session=" h
    then inr (Some (sessionOf (substring 8 (String.length h - 8) h)))
    else inr None).

Definition healthy : Query -> option string := fun _ => None.

Definition request (h : string) : TRPCContext :=
  mkTRPCContext (mkRequest h) (mkDB store healthy) authService.



End Seed.

(* ================================================================== *)
(** ** Further seeded requests                                         *)
(* ================================================================== *)

Module Offline.

(** A store that rejects every select. *)
Definition refused : Query -> option string :=
  fun _ => Some "connect ECONNREFUSED".

Definition request (h : string) : TRPCContext :=
  mkTRPCContext (mkRequest h) (mkDB Seed.store refused) Seed.authService.



End Offline.

(* ================================================================== *)
(** ** Comparing contents of the tables                                *)
(* ================================================================== *)

(** Every row of [T] is a row of [T']. *)
Definition tablesIncl (T T' : Schema.Tables) : Prop :=
  incl (Schema.roles T) (Schema.roles T')
  /\ incl (Schema.permissions T) (Schema.permissions T')
  /\ incl (Schema.rolePermissions T) (Schema.rolePermissions T')
  /\ incl (Schema.userRoles T) (Schema.userRoles T').

(** The user_roles rows of one principal, in table order. *)
Definition assignmentsOf (T : Schema.Tables) (uid : string)
  : list Schema.UserRole :=
  filter (fun ur => Schema.ur_userId ur =? uid) (Schema.userRoles T).

(** [T] and [T'] differ at most in the user_roles rows of principals
    other than [uid]. *)
Definition sameFor (uid : string) (T T' : Schema.Tables) : Prop :=
  Schema.roles T = Schema.roles T'
  /\ Schema.permissions T = Schema.permissions T'
  /\ Schema.rolePermissions T = Schema.rolePermissions T'
  /\ assignmentsOf T uid = assignmentsOf T' uid.

(** The key constraints the schema declares: [roles.id] and
    [permissions.id] are primary keys, [roles.name] and
    [permissions.name] are unique, and the two junction tables have the
    pair of their columns as primary key. *)
Definition keyConstraints (T : Schema.Tables) : Prop :=
  NoDup (map Schema.role_id (Schema.roles T))
  /\ NoDup (map Schema.role_name (Schema.roles T))
  /\ NoDup (map Schema.perm_id (Schema.permissions T))
  /\ NoDup (map Schema.perm_name (Schema.permissions T))
  /\ NoDup (map (fun rp => (Schema.rp_roleId rp, Schema.rp_permissionId rp))
               (Schema.rolePermissions T))
  /\ NoDup (map (fun ur => (Schema.ur_userId ur, Schema.ur_roleId ur))
               (Schema.userRoles T)).

(* ================================================================== *)
(** ** The CMS barrier (apps/cms/src/components/cms-barrier.tsx)       *)
(* ================================================================== *)

Module CmsBarrier.

(** What [useSession()] yields: [undefined] while the session is being
    loaded, [null] when there is none. *)
Inductive SessionState :=
| SessionUndefined
| SessionNull
| SessionOf (s : Session).

(** The fields of a [useQuery] result the component reads. *)
Record QueryResult (A : Type) := mkQueryResult {
  isPending : bool;
  isError : bool;
  data : option A
}.

Arguments mkQueryResult {A} _ _ _.
Arguments isPending {A} _.
Arguments isError {A} _.
Arguments data {A} _.

Inductive Element :=
| Spinner
| Navigate (pathname search : string)
| AccessDenied
| Children.

(** [cmsCheck.data?.isAdmin], read as a condition. *)
Definition dataIsAdmin (cmsCheck : QueryResult cms.AccessReport) : bool :=
  match data cmsCheck with
  | Some report => cms.isAdmin report
  | None => false
  end.

(** The [enabled] option of the checkAccess query. *)
Definition checkAccessEnabled (session : SessionState) : bool :=
  match session with
  | SessionOf _ => true
  | _ => false
  end.

Section Component.
Variable encodeURIComponent : string -> string.

Definition CMSBarrier (session : SessionState) (pathname : string)
    (cmsCheck : QueryResult cms.AccessReport) : Element :=
  match session with
  | SessionUndefined => Spinner
  | SessionNull =>
      Navigate "/login" ("?redirect=" ++ encodeURIComponent pathname)
  | SessionOf _ =>
      if isPending cmsCheck then Spinner
      else if isError cmsCheck || negb (dataIsAdmin cmsCheck)
      then AccessDenied
      else Children
  end.

End Component.

(** A hook either throws an [Error] with a message or returns. *)
Definition useCMSRoles (cmsCheck : QueryResult cms.AccessReport)
  : string + list string :=
  match data cmsCheck with
  | Some report =>
      if negb (cms.isAdmin report) then
        inl "useCMSRoles must be used inside CMSBarrier with a valid CMS user"
      else inr (cms.roles report)
  | None =>
      inl "useCMSRoles must be used inside CMSBarrier with a valid CMS user"
  end.

Definition useHasRole (roleName : string)
    (cmsCheck : QueryResult cms.AccessReport) : string + bool :=
  match useCMSRoles cmsCheck with
  | inl err => inl err
  | inr roles => inr (includes roles roleName)
  end.

Definition useIsSuperAdmin (cmsCheck : QueryResult cms.AccessReport)
  : string + bool :=
  useHasRole "super_admin" cmsCheck.

(** The query result after the checkAccess request of [ctx] resolved
    with [report]. *)
Definition carries (cmsCheck : QueryResult cms.AccessReport)
    (ctx : TRPCContext) : Prop :=
  isPending cmsCheck = false /\ isError cmsCheck = false
  /\ exists report,
       outcome (cms.checkAccess ctx) = inr report
       /\ data cmsCheck = Some report.

End CmsBarrier.

(* ================================================================== *)
(** ** The CMS sidebar (apps/cms/src/layouts/cms-sidebar.tsx)          *)
(* ================================================================== *)

Module CmsSidebar.

Record MenuItem := mkMenuItem {
  title : string;
  url : string;
  icon : string
}.

Definition cmsMenuItems : list MenuItem :=
  [ mkMenuItem "Dashboard" "/" "Home";
    mkMenuItem "Pages" "/pages" "FileText";
    mkMenuItem "Articles" "/articles" "FileText";
    mkMenuItem "Media" "/media" "ImageIcon";
    mkMenuItem "Categories" "/categories" "FolderOpen";
    mkMenuItem "Tags" "/tags" "Tags" ].

Definition ecommerceMenuItems : list MenuItem :=
  [ mkMenuItem "Products" "/products" "Package";
    mkMenuItem "Orders" "/orders" "ShoppingCart" ].

Definition settingsMenuItems : list MenuItem :=
  [ mkMenuItem "Users" "/users" "Users";
    mkMenuItem "Settings" "/settings" "Settings" ].

(** [String.prototype.startsWith] *)
Definition startsWith (s searchString : string) : bool :=
  prefix searchString s.

(** The closure [isActive] of the component, with [location.pathname]
    made a parameter. *)
Definition isActive (pathname : string) (url : string) : bool :=
  if url =? "/" then pathname =? "/" else startsWith pathname url.

(** The items rendered, group after group. *)
Definition renderedItems : list MenuItem :=
  (cmsMenuItems ++ ecommerceMenuItems ++ settingsMenuItems)%list.

(** The items whose button is rendered with [isActive] set. *)
Definition activeItems (pathname : string) : list MenuItem :=
  filter (fun item => isActive pathname (url item)) renderedItems.

End CmsSidebar.

(* ================================================================== *)
(** ** The mobile auth screens (apps/mobile/app/(auth)/*.tsx)          *)
(* ================================================================== *)

Module MobileAuth.

(** A string typed into a field, as the host language holds it: its
    sequence of UTF-16 code units.  [s.length] is the number of code
    units.  (Literal texts and messages that are only passed on stay
    [string]s.) *)
Definition JsString : Type := list N.

(** [s.length] *)
Definition jsLength (s : JsString) : nat := length s.

(** The code units of a text written with ASCII characters only. *)
Definition ofAscii (s : string) : JsString :=
  map Ascii.N_of_ascii (list_ascii_of_string s).

(** What a handler does to the outside, in order. *)
Inductive UiEffect :=
| AlertAlert (title message : string)
| SetLoading (loading : bool)
| SetSent (sent : bool)
| RouterReplace (href : string)
| SignUpEmail (name email password : JsString)
| SignInEmail (email password : JsString)
| SignInSocial (provider : string)
| ForgetPassword (email : JsString) (redirectTo : string).

(** How an awaited call to the auth client ends: it resolves with a
    result whose [error] is set (with its message) or not, or it
    rejects. *)
Inductive AuthReply :=
| Resolved (error : option string)
| Rejected.

Record AuthClient := mkAuthClient {
  signUp_email : JsString -> JsString -> JsString -> AuthReply;
  signIn_email : JsString -> JsString -> AuthReply;
  signIn_social : string -> AuthReply;
  forgetPassword : JsString -> string -> AuthReply
}.

(** [!s] for a string [s]: true exactly for the empty string. *)
Definition isBlank (s : JsString) : bool :=
  match s with
  | [] => true
  | _ :: _ => false
  end.

(** login.tsx *)
Definition handleLogin (auth : AuthClient) (email password : JsString)
  : list UiEffect :=
  if isBlank email || isBlank password then
    [AlertAlert "Error" "Please fill in all fields"]
  else
    ([SetLoading true; SignInEmail email password]
     ++ match signIn_email auth email password with
        | Resolved (Some msg) => [AlertAlert "Login Failed" msg]
        | Resolved None => [RouterReplace "/(tabs)"]
        | Rejected => [AlertAlert "Error" "An unexpected error occurred"]
        end
     ++ [SetLoading false])%list.

Definition handleGoogleLogin (auth : AuthClient) : list UiEffect :=
  ([SetLoading true; SignInSocial "google"]
   ++ match signIn_social auth "google" with
      | Resolved _ => []
      | Rejected => [AlertAlert "Error" "Google sign-in failed"]
      end
   ++ [SetLoading false])%list.

(** sign-up.tsx *)
Definition handleSignUp (auth : AuthClient)
    (name email password : JsString)
  : list UiEffect :=
  if isBlank name || isBlank email || isBlank password then
    [AlertAlert "Error" "Please fill in all fields"]
  else if (jsLength password <? 8)%nat then
    [AlertAlert "Error" "Password must be at least 8 characters"]
  else
    ([SetLoading true; SignUpEmail name email password]
     ++ match signUp_email auth name email password with
        | Resolved (Some msg) => [AlertAlert "Sign Up Failed" msg]
        | Resolved None => [RouterReplace "/(tabs)"]
        | Rejected => [AlertAlert "Error" "An unexpected error occurred"]
        end
     ++ [SetLoading false])%list.

Definition handleGoogleSignUp (auth : AuthClient) : list UiEffect :=
  ([SetLoading true; SignInSocial "google"]
   ++ match signIn_social auth "google" with
      | Resolved _ => []
      | Rejected => [AlertAlert "Error" "Google sign-up failed"]
      end
   ++ [SetLoading false])%list.

(** reset-password.tsx *)
Definition handleResetPassword (auth : AuthClient) (email : JsString)
  : list UiEffect :=
  if isBlank email then
    [AlertAlert "Error" "Please enter your email address"]
  else
    ([SetLoading true; ForgetPassword email "/reset-password"]
     ++ match forgetPassword auth email "/reset-password" with
        | Resolved (Some msg) => [AlertAlert "Error" msg]
        | Resolved None => [SetSent true]
        | Rejected => [AlertAlert "Error" "An unexpected error occurred"]
        end
     ++ [SetLoading false])%list.

(** The effects that reach the auth client. *)
Definition isAuthCall (e : UiEffect) : bool :=
  match e with
  | SignUpEmail _ _ _ | SignInEmail _ _ | SignInSocial _
  | ForgetPassword _ _ => true
  | _ => false
  end.

Definition isAlert (e : UiEffect) : bool :=
  match e with
  | AlertAlert _ _ => true
  | _ => false
  end.

(** A client that accepts every request. *)
Definition accepting : AuthClient :=
  mkAuthClient (fun _ _ _ => Resolved None) (fun _ _ => Resolved None)
               (fun _ => Resolved None) (fun _ _ => Resolved None).

(** A client whose every call rejects. *)
Definition unreachable : AuthClient :=
  mkAuthClient (fun _ _ _ => Rejected) (fun _ _ => Rejected)
               (fun _ => Rejected) (fun _ _ => Rejected).

End MobileAuth.

(* ================================================================== *)
(** ** Laws of the asynchronous monad                                  *)
(* ================================================================== *)

Lemma await_resolve_l {A B : Type} (a : A) (k : A -> Async B) :
  await (resolve a) k = k a.
Proof. unfold await, resolve. destruct (k a); reflexivity. Qed.

Lemma await_resolve_r {A : Type} (c : Async A) : await c resolve = c.
Proof.
  destruct c as [tr [e | a]]; simpl; [reflexivity |].
  now rewrite app_nil_r.
Qed.

Lemma await_assoc {A B C : Type} (c : Async A) (f : A -> Async B)
    (g : B -> Async C) :
  await (await c f) g = await c (fun x => await (f x) g).
Proof.
  destruct c as [tr [e | a]]; simpl; [reflexivity |].
  destruct (f a) as [tr1 [e1 | b]]; simpl; [reflexivity |].
  destruct (g b) as [tr2 r2]. now rewrite app_assoc.
Qed.

Lemma await_throws {A B : Type} (c : Async A) (k : A -> Async B) e :
  outcome c = inl e -> await c k = (trace c, inl e).
Proof. destruct c as [tr [e' | a]]; simpl; congruence. Qed.

Lemma await_ext {A B : Type} (c : Async A) (f g : A -> Async B) :
  (forall a, f a = g a) -> await c f = await c g.
Proof.
  intros H. destruct c as [tr [e | a]]; simpl; [reflexivity |].
  now rewrite H.
Qed.

(* ================================================================== *)
(** ** Every guard calls its continuation in tail position             *)
(* ================================================================== *)

Lemma publicProcedure_tail : tailCalling publicProcedure.
Proof. intros R c next. unfold publicProcedure. now rewrite await_resolve_l. Qed.

Lemma use_tail {C D : Type} (p : Procedure C) (mw : Middleware C D) :
  tailCalling p -> tailCalling mw -> tailCalling (use p mw).
Proof.
  intros Hp Hm R ctx next. unfold use.
  rewrite (Hp R), (Hp D), await_assoc.
  apply await_ext. intros c. apply Hm.
Qed.

Lemma protectedProcedure_tail : tailCalling protectedProcedure.
Proof.
  apply use_tail; [apply publicProcedure_tail |].
  intros R ctx next. unfold callGetSession.
  destruct (getSession (auth ctx) (headers (req ctx))) as [reason | [s |]];
    simpl; [reflexivity | | reflexivity].
  now destruct (next _).
Qed.

Lemma adminProcedure_tail : tailCalling adminProcedure.
Proof.
  apply use_tail; [apply protectedProcedure_tail |].
  intros R ctx next. unfold execute.
  destruct (fault _ _); simpl; [reflexivity |].
  destruct (negb _); simpl; [reflexivity |].
  now destruct (next _).
Qed.

Lemma createPermissionProcedure_tail requiredPermission :
  tailCalling (createPermissionProcedure requiredPermission).
Proof.
  apply use_tail; [apply adminProcedure_tail |].
  intros R ctx next.
  destruct (includes (userRoles ctx) "super_admin").
  - now rewrite await_resolve_l.
  - unfold execute. destruct (fault _ _); simpl; [reflexivity |].
    destruct (_ =? _)%nat; simpl; [reflexivity |].
    now destruct (next _).
Qed.

(** With any wrapped action, the call is the guard followed by the
    action on the context the guard built. *)
Lemma guard_then_action {C R : Type} (p : Procedure C) :
  tailCalling p ->
  forall ctx (action : C -> Async R),
    query p action ctx = await (guard p ctx) action.
Proof. intros Hp ctx action. apply Hp. Qed.

(* ================================================================== *)
(** ** What each guard computes                                        *)
(* ================================================================== *)

Section GuardRuns.
Variable ctx : TRPCContext.

Let h := headers (req ctx).

Lemma guard_protected_none :
  getSession (auth ctx) h = inr None ->
  guard protectedProcedure ctx = ([GetSession h], inl Unauthenticated).
Proof.
  intros E. unfold guard, protectedProcedure, use, publicProcedure,
    callGetSession. fold h. now rewrite E.
Qed.

Lemma guard_protected_some s :
  getSession (auth ctx) h = inr (Some s) ->
  guard protectedProcedure ctx
  = ([GetSession h], inr (mkProtectedContext s ctx)).
Proof.
  intros E. unfold guard, protectedProcedure, use, publicProcedure,
    callGetSession. fold h. now rewrite E.
Qed.

Variable s : Session.
Hypothesis Hs : getSession (auth ctx) h = inr (Some s).

Let uid := id (user s).
Let names := selectRoleNames (tables (db ctx)) uid.

Lemma guard_admin_fault reason :
  fault (db ctx) (SelectRoleNames uid) = Some reason ->
  guard adminProcedure ctx
  = ([GetSession h; DbSelect (SelectRoleNames uid)],
     inl (ThrownByStore reason)).
Proof.
  intros F. unfold guard, adminProcedure. unfold use at 1.
  rewrite (protectedProcedure_tail _ ctx).
  fold (guard protectedProcedure ctx). rewrite (guard_protected_some s Hs).
  unfold execute. simpl. fold uid. now rewrite F.
Qed.

Lemma guard_admin_run :
  fault (db ctx) (SelectRoleNames uid) = None ->
  guard adminProcedure ctx
  = ([GetSession h; DbSelect (SelectRoleNames uid)],
     if some names (includes Schema.ADMIN_ROLES)
     then inr (mkAdminContext (mkProtectedContext s ctx) names)
     else inl ForbiddenNotAdmin).
Proof.
  intros F. unfold guard, adminProcedure. unfold use at 1.
  rewrite (protectedProcedure_tail _ ctx).
  fold (guard protectedProcedure ctx). rewrite (guard_protected_some s Hs).
  unfold execute. simpl. fold uid. rewrite F. simpl. fold names.
  now destruct (some names _).
Qed.

Variable requiredPermission : string.

Lemma guard_permission_after_admin :
  guard (createPermissionProcedure requiredPermission) ctx
  = (actx <- guard adminProcedure ctx ;;
     if includes (userRoles actx) "super_admin" then resolve actx
     else
       hasPermission <-
         execute (db (base (inherited actx)))
           (SelectPermissionGrant (id (user (session (inherited actx))))
                                  requiredPermission)
           (fun T => selectPermissionGrant T
              (id (user (session (inherited actx)))) requiredPermission) ;;
       if (length hasPermission =? 0)%nat
       then throw (ForbiddenMissingPermission requiredPermission)
       else resolve actx).
Proof.
  unfold guard at 1, createPermissionProcedure. unfold use at 1.
  now rewrite (adminProcedure_tail _ ctx).
Qed.

Lemma guard_permission_run :
  fault (db ctx) (SelectRoleNames uid) = None ->
  some names (includes Schema.ADMIN_ROLES) = true ->
  includes names "super_admin" = false ->
  guard (createPermissionProcedure requiredPermission) ctx
  = ([GetSession h; DbSelect (SelectRoleNames uid);
      DbSelect (SelectPermissionGrant uid requiredPermission)],
     match fault (db ctx) (SelectPermissionGrant uid requiredPermission) with
     | Some reason => inl (ThrownByStore reason)
     | None =>
         if (length (selectPermissionGrant (tables (db ctx)) uid
                       requiredPermission) =? 0)%nat
         then inl (ForbiddenMissingPermission requiredPermission)
         else inr (mkAdminContext (mkProtectedContext s ctx) names)
     end).
Proof.
  intros F Ha Hsa. rewrite guard_permission_after_admin, (guard_admin_run F), Ha.
  simpl. rewrite Hsa. unfold execute. simpl. fold uid.
  destruct (fault (db ctx) (SelectPermissionGrant uid requiredPermission));
    simpl; [reflexivity |].
  now destruct (_ =? _)%nat.
Qed.

Lemma guard_permission_bypass :
  fault (db ctx) (SelectRoleNames uid) = None ->
  some names (includes Schema.ADMIN_ROLES) = true ->
  includes names "super_admin" = true ->
  guard (createPermissionProcedure requiredPermission) ctx
  = ([GetSession h; DbSelect (SelectRoleNames uid)],
     inr (mkAdminContext (mkProtectedContext s ctx) names)).
Proof.
  intros F Ha Hsa. rewrite guard_permission_after_admin, (guard_admin_run F), Ha.
  simpl. now rewrite Hsa.
Qed.

Lemma guard_permission_not_admin :
  fault (db ctx) (SelectRoleNames uid) = None ->
  some names (includes Schema.ADMIN_ROLES) = false ->
  guard (createPermissionProcedure requiredPermission) ctx
  = ([GetSession h; DbSelect (SelectRoleNames uid)], inl ForbiddenNotAdmin).
Proof.
  intros F Ha. now rewrite guard_permission_after_admin, (guard_admin_run F), Ha.
Qed.

Lemma guard_permission_fault reason :
  fault (db ctx) (SelectRoleNames uid) = Some reason ->
  guard (createPermissionProcedure requiredPermission) ctx
  = ([GetSession h; DbSelect (SelectRoleNames uid)],
     inl (ThrownByStore reason)).
Proof.
  intros F. now rewrite guard_permission_after_admin, (guard_admin_fault _ F).
Qed.

End GuardRuns.

(* ================================================================== *)
(** ** The selects against the relational reading                      *)
(* ================================================================== *)

Lemma includes_In xs x : includes xs x = true <-> In x xs.
Proof.
  unfold includes. rewrite existsb_exists. split.
  - intros [y [Hy E]]. apply String.eqb_eq in E. now subst.
  - intros H. exists x. split; [assumption | apply String.eqb_refl].
Qed.

Lemma includes_ADMIN_ROLES n :
  includes Schema.ADMIN_ROLES n = true <-> isAdminRole n.
Proof.
  rewrite includes_In. unfold isAdminRole, Schema.ADMIN_ROLES. simpl.
  unfold Schema.ROLE_NAMES.SUPER_ADMIN, Schema.ROLE_NAMES.EDITOR,
    Schema.ROLE_NAMES.CONTENT_MANAGER.
  intuition congruence.
Qed.

Lemma some_admin_spec names :
  some names (includes Schema.ADMIN_ROLES) = true
  <-> exists n, In n names /\ isAdminRole n.
Proof.
  unfold some. rewrite existsb_exists.
  split; intros [n [Hn Ha]]; exists n; split; try assumption;
    now apply includes_ADMIN_ROLES.
Qed.

Lemma some_admin_false names :
  some names (includes Schema.ADMIN_ROLES) = false
  <-> forall n, In n names -> ~ isAdminRole n.
Proof.
  split.
  - intros E n Hn Ha.
    assert (some names (includes Schema.ADMIN_ROLES) = true)
      by (apply some_admin_spec; eauto).
    congruence.
  - intros H. apply not_true_is_false. intros E.
    apply some_admin_spec in E. destruct E as [n [Hn Ha]]. exact (H n Hn Ha).
Qed.

Section SelectSpecs.
Import Schema.
Variable T : Tables.

Lemma In_userRoles_join_roles ur r :
  In (ur, r) (userRoles_join_roles T)
  <-> In ur (Schema.userRoles T) /\ In r (Schema.roles T)
      /\ role_id r = ur_roleId ur.
Proof.
  unfold userRoles_join_roles. rewrite in_flat_map. split.
  - intros [ur' [Hur H]]. apply in_map_iff in H.
    destruct H as [r' [E Hr]]. inversion E; subst.
    apply filter_In in Hr. destruct Hr as [Hr Eq].
    apply String.eqb_eq in Eq. auto.
  - intros [Hur [Hr E]]. exists ur. split; [assumption |].
    apply in_map. apply filter_In. split; [assumption |].
    now apply String.eqb_eq.
Qed.

Lemma In_selectRoleNames uid n :
  In n (selectRoleNames T uid) <-> holdsRole T uid n.
Proof.
  unfold selectRoleNames, holdsRole. rewrite in_map_iff. split.
  - intros [[ur r] [E H]]. simpl in E. apply filter_In in H.
    destruct H as [H Eu]. simpl in Eu. apply String.eqb_eq in Eu.
    apply In_userRoles_join_roles in H. destruct H as [Hur [Hr Er]].
    exists ur, r. auto.
  - intros [ur [r [Hur [Hr [Er [Eu En]]]]]]. exists (ur, r). split;
      [exact En |].
    apply filter_In. split.
    + now apply In_userRoles_join_roles.
    + simpl. now apply String.eqb_eq.
Qed.

Lemma In_permission_join ur r rp pm :
  In (ur, r, rp, pm) (permission_join T)
  <-> In (ur, r) (userRoles_join_roles T)
      /\ In rp (Schema.rolePermissions T) /\ In pm (Schema.permissions T)
      /\ rp_roleId rp = role_id r /\ perm_id pm = rp_permissionId rp.
Proof.
  unfold permission_join. rewrite in_flat_map. split.
  - intros [[ur' r'] [Hj H]]. apply in_flat_map in H.
    destruct H as [rp' [Hrp H]]. apply in_map_iff in H.
    destruct H as [pm' [E Hpm]]. inversion E; subst.
    apply filter_In in Hrp. apply filter_In in Hpm.
    destruct Hrp as [Hrp E1], Hpm as [Hpm E2]. simpl in E1.
    apply String.eqb_eq in E1. apply String.eqb_eq in E2. auto.
  - intros [Hj [Hrp [Hpm [E1 E2]]]]. exists (ur, r). split; [assumption |].
    apply in_flat_map. exists rp. split.
    + apply filter_In. split; [assumption |]. simpl. now apply String.eqb_eq.
    + apply in_map_iff. exists pm. split; [reflexivity |].
      apply filter_In. split; [assumption |]. now apply String.eqb_eq.
Qed.

Lemma firstn_1_empty {A : Type} (l : list A) :
  (length (firstn 1 l) =? 0)%nat = true <-> l = [].
Proof. destruct l; simpl; split; congruence. Qed.

Lemma selectPermissionGrant_some uid p :
  (length (selectPermissionGrant T uid p) =? 0)%nat = false
  <-> grantChain T uid p.
Proof.
  unfold selectPermissionGrant, grantChain.
  rewrite <- not_true_iff_false, firstn_1_empty. split.
  - intros Hne.
    destruct (filter _ (permission_join T)) as [| [[[ur r] rp] pm] rest] eqn:E;
      [now contradiction Hne |].
    assert (Hin : In (ur, r, rp, pm) (filter
              (fun row => (ur_userId (fst (fst (fst row))) =? uid)
                          && (perm_name (snd row) =? p)) (permission_join T)))
      by (rewrite E; now left).
    apply filter_In in Hin. destruct Hin as [Hj Hw]. simpl in Hw.
    apply andb_true_iff in Hw. destruct Hw as [Eu Ep].
    apply String.eqb_eq in Eu. apply String.eqb_eq in Ep.
    apply In_permission_join in Hj. destruct Hj as [Hj [Hrp [Hpm [E1 E2]]]].
    apply In_userRoles_join_roles in Hj. destruct Hj as [Hur [Hr Er]].
    exists ur, r, rp, pm. repeat split; assumption.
  - intros [ur [r [rp [pm [Hur [Hr [Hrp [Hpm [Er [E1 [E2 [Eu Ep]]]]]]]]]]]] Hnil.
    assert (Hin : In (ur, r, rp, pm) (filter
              (fun row => (ur_userId (fst (fst (fst row))) =? uid)
                          && (perm_name (snd row) =? p)) (permission_join T))).
    { apply filter_In. split.
      - apply In_permission_join. repeat split; try assumption.
        now apply In_userRoles_join_roles.
      - simpl. apply andb_true_iff. split; now apply String.eqb_eq. }
    apply (in_map (fun row => ur_userId (fst (fst (fst row))))) in Hin.
    rewrite Hnil in Hin. exact Hin.
Qed.

Lemma selectPermissionGrant_none uid p :
  (length (selectPermissionGrant T uid p) =? 0)%nat = true
  <-> ~ grantChain T uid p.
Proof.
  rewrite <- selectPermissionGrant_some.
  destruct (_ =? _)%nat; split; congruence.
Qed.

Lemma roleGrants_spec rid p :
  roleGrants T rid p = true
  <-> exists rp pm,
        In rp (Schema.rolePermissions T) /\ In pm (Schema.permissions T) /\
        rp_roleId rp = rid /\ perm_id pm = rp_permissionId rp /\
        perm_name pm = p.
Proof.
  unfold roleGrants. rewrite existsb_exists. split.
  - intros [rp [Hrp H]]. apply andb_true_iff in H. destruct H as [E1 H].
    apply existsb_exists in H. destruct H as [pm [Hpm H]].
    apply andb_true_iff in H. destruct H as [E2 E3].
    apply String.eqb_eq in E1. apply String.eqb_eq in E2.
    apply String.eqb_eq in E3. exists rp, pm. auto.
  - intros [rp [pm [Hrp [Hpm [E1 [E2 E3]]]]]]. exists rp. split; [assumption |].
    apply andb_true_iff. split; [now apply String.eqb_eq |].
    apply existsb_exists. exists pm. split; [assumption |].
    apply andb_true_iff. split; now apply String.eqb_eq.
Qed.

Lemma assigned_grant_chain uid rid p :
  assigned T uid rid = true -> roleGrants T rid p = true ->
  grantChain T uid p.
Proof.
  unfold assigned. intros Ha Hg. apply andb_true_iff in Ha.
  destruct Ha as [Hur Hr]. apply existsb_exists in Hur, Hr.
  destruct Hur as [ur [Hur E]], Hr as [r [Hr Er]].
  apply andb_true_iff in E. destruct E as [Eu Ei].
  apply String.eqb_eq in Eu. apply String.eqb_eq in Ei.
  apply String.eqb_eq in Er.
  apply roleGrants_spec in Hg.
  destruct Hg as [rp [pm [Hrp [Hpm [E1 [E2 E3]]]]]].
  exists ur, r, rp, pm. repeat split; congruence.
Qed.

End SelectSpecs.

Lemma guard_admin_after_protected ctx :
  guard adminProcedure ctx
  = (pctx <- guard protectedProcedure ctx ;;
     userRoleNames <-
       execute (db (base pctx))
               (SelectRoleNames (id (user (session pctx))))
               (fun T => selectRoleNames T (id (user (session pctx)))) ;;
     if negb (some userRoleNames (includes Schema.ADMIN_ROLES))
     then throw ForbiddenNotAdmin
     else resolve (mkAdminContext pctx userRoleNames)).
Proof.
  unfold guard at 1, adminProcedure. unfold use at 1.
  now rewrite (protectedProcedure_tail _ ctx).
Qed.

Lemma guard_admin_none ctx :
  getSession (auth ctx) (headers (req ctx)) = inr None ->
  guard adminProcedure ctx
  = ([GetSession (headers (req ctx))], inl Unauthenticated).
Proof.
  intros E. now rewrite guard_admin_after_protected, guard_protected_none.
Qed.

Lemma guard_permission_none ctx p :
  getSession (auth ctx) (headers (req ctx)) = inr None ->
  guard (createPermissionProcedure p) ctx
  = ([GetSession (headers (req ctx))], inl Unauthenticated).
Proof.
  intros E. now rewrite guard_permission_after_admin, guard_admin_none.
Qed.

Lemma guard_protected_reject ctx reason :
  getSession (auth ctx) (headers (req ctx)) = inl reason ->
  guard protectedProcedure ctx
  = ([GetSession (headers (req ctx))], inl (ThrownByAuth reason)).
Proof.
  intros E. unfold guard, protectedProcedure, use, publicProcedure,
    callGetSession. now rewrite E.
Qed.

Lemma guard_admin_reject ctx reason :
  getSession (auth ctx) (headers (req ctx)) = inl reason ->
  guard adminProcedure ctx
  = ([GetSession (headers (req ctx))], inl (ThrownByAuth reason)).
Proof.
  intros E.
  now rewrite guard_admin_after_protected, (guard_protected_reject _ _ E).
Qed.

Lemma guard_permission_reject ctx p reason :
  getSession (auth ctx) (headers (req ctx)) = inl reason ->
  guard (createPermissionProcedure p) ctx
  = ([GetSession (headers (req ctx))], inl (ThrownByAuth reason)).
Proof.
  intros E.
  now rewrite guard_permission_after_admin, (guard_admin_reject _ _ E).
Qed.

(* ================================================================== *)
(** ** Session gate                                                    *)
(* ================================================================== *)

(** C4. When session resolution returns null, every guarded call -- the
    authenticated-only, the admin-gated and the permission-gated
    procedure around any action, and the two cms queries -- ends with the
    UNAUTHORIZED error after exactly one external call, the session
    lookup: no select is sent to the store and the result does not depend
    on the wrapped action, which therefore never runs. *)
Theorem unauthenticated_short_circuit (ctx : TRPCContext) :
  getSession (auth ctx) (headers (req ctx)) = inr None ->
  (forall R (action : ProtectedContext -> Async R),
     stopsAtSession ctx (query protectedProcedure action ctx))
  /\ (forall R (action : AdminContext -> Async R),
        stopsAtSession ctx (query adminProcedure action ctx))
  /\ (forall p R (action : AdminContext -> Async R),
        stopsAtSession ctx (query (createPermissionProcedure p) action ctx))
  /\ stopsAtSession ctx (cms.checkAccess ctx)
  /\ stopsAtSession ctx (cms.listRoles ctx).
Proof.
  intros E. unfold stopsAtSession.
  assert (P : forall R (action : ProtectedContext -> Async R),
            query protectedProcedure action ctx
            = ([GetSession (headers (req ctx))], inl Unauthenticated)).
  { intros R action.
    now rewrite (guard_then_action _ protectedProcedure_tail),
      guard_protected_none. }
  repeat split.
  - exact P.
  - intros R action.
    now rewrite (guard_then_action _ adminProcedure_tail), guard_admin_none.
  - intros p R action.
    now rewrite (guard_then_action _ (createPermissionProcedure_tail p)),
      guard_permission_none.
  - apply P.
  - apply P.
Qed.

Lemma unauthenticated_short_circuit_witness :
  getSession (auth (Seed.request "")) (headers (req (Seed.request ""))) = inr None
  /\ stopsAtSession (Seed.request "")
       (query (createPermissionProcedure "cms.pages.create")
              (fun actx => execute (db (base (inherited actx))) SelectAllRoles
                             selectAllRoles)
              (Seed.request "")).
Proof.
  split; [reflexivity |].
  apply (unauthenticated_short_circuit (Seed.request "") eq_refl).
Defined.

(* ================================================================== *)
(** ** Admin gate                                                      *)
(* ================================================================== *)

(** C3. For an authenticated principal (and a store that answers the
    role select), adminProcedure reaches its continuation if and only if
    one of the principal's role names is super_admin, editor or
    content_manager; when none is, the call is rejected with the
    FORBIDDEN error whose message is 'Admin access required'. *)
Theorem adminProcedure_decision (ctx : TRPCContext) (s : Session) :
  getSession (auth ctx) (headers (req ctx)) = inr (Some s) ->
  fault (db ctx) (SelectRoleNames (id (user s))) = None ->
  (allows adminProcedure ctx = true
   <-> exists n, In n (selectRoleNames (tables (db ctx)) (id (user s)))
                 /\ isAdminRole n)
  /\ ((forall n, In n (selectRoleNames (tables (db ctx)) (id (user s)))
                 -> ~ isAdminRole n)
      -> outcome (guard adminProcedure ctx)
         = inl (ThrownTRPC
                  (mkTRPCError FORBIDDEN (Some "Admin access required")))).
Proof.
  intros Hs F. unfold allows. rewrite (guard_admin_run ctx s Hs F).
  split.
  - rewrite <- some_admin_spec.
    destruct (some _ _); simpl; split; congruence.
  - intros H. apply some_admin_false in H. now rewrite H.
Qed.

Lemma adminProcedure_decision_witness :
  selectRoleNames Seed.store "carol" = ["customer"; "support"]
  /\ allows adminProcedure (Seed.request "session=carol") = false
  /\ outcome (guard adminProcedure (Seed.request "session=carol"))
     = inl (ThrownTRPC
              (mkTRPCError FORBIDDEN (Some "Admin access required"))).
Proof.
  split; [reflexivity |]. split; [reflexivity |].
  apply (adminProcedure_decision (Seed.request "session=carol")
           (Seed.sessionOf "carol") eq_refl eq_refl).
  intros n H. simpl in H. unfold isAdminRole.
  destruct H as [<- | [<- | []]]; intuition discriminate.
Defined.

(* ================================================================== *)
(** ** Permission gate                                                 *)
(* ================================================================== *)

Lemma allows_permission_iff ctx s p :
  getSession (auth ctx) (headers (req ctx)) = inr (Some s) ->
  fault (db ctx) (SelectRoleNames (id (user s))) = None ->
  fault (db ctx) (SelectPermissionGrant (id (user s)) p) = None ->
  (allows (createPermissionProcedure p) ctx = true
   <-> (exists n, In n (selectRoleNames (tables (db ctx)) (id (user s)))
                  /\ isAdminRole n)
       /\ (In "super_admin" (selectRoleNames (tables (db ctx)) (id (user s)))
           \/ grantChain (tables (db ctx)) (id (user s)) p)).
Proof.
  intros Hs F1 F2. unfold allows.
  rewrite <- some_admin_spec, <- includes_In, <- selectPermissionGrant_some.
  destruct (some (selectRoleNames (tables (db ctx)) (id (user s)))
                 (includes Schema.ADMIN_ROLES)) eqn:Ea.
  - destruct (includes (selectRoleNames (tables (db ctx)) (id (user s)))
                       "super_admin") eqn:Esa.
    + rewrite (guard_permission_bypass ctx s Hs p F1 Ea Esa). simpl. tauto.
    + rewrite (guard_permission_run ctx s Hs p F1 Ea Esa), F2. simpl.
      destruct (_ =? _)%nat; simpl; intuition congruence.
  - rewrite (guard_permission_not_admin ctx s Hs p F1 Ea). simpl.
    intuition congruence.
Qed.

(** C1 (amended). For an authenticated principal and a store that
    answers, the permission-gated procedure reaches its continuation if
    and only if the principal's role names intersect the admin role set
    AND (they contain super_admin OR the store holds a UserRole -> Role ->
    RolePermission -> Permission chain for the principal ending in the
    required permission name): the permission check sits behind the
    admin gate. *)
Theorem permission_decision (ctx : TRPCContext) (s : Session) (p : string) :
  getSession (auth ctx) (headers (req ctx)) = inr (Some s) ->
  fault (db ctx) (SelectRoleNames (id (user s))) = None ->
  fault (db ctx) (SelectPermissionGrant (id (user s)) p) = None ->
  (allows (createPermissionProcedure p) ctx = true
   <-> (exists n, In n (selectRoleNames (tables (db ctx)) (id (user s)))
                  /\ isAdminRole n)
       /\ (In "super_admin" (selectRoleNames (tables (db ctx)) (id (user s)))
           \/ grantChain (tables (db ctx)) (id (user s)) p)).
Proof. exact (allows_permission_iff ctx s p). Qed.

Lemma permission_decision_witness :
  allows (createPermissionProcedure "cms.pages.create")
         (Seed.request "session=bob") = true
  <-> (exists n, In n (selectRoleNames Seed.store "bob") /\ isAdminRole n)
      /\ (In "super_admin" (selectRoleNames Seed.store "bob")
          \/ grantChain Seed.store "bob" "cms.pages.create").
Proof.
  exact (permission_decision (Seed.request "session=bob")
           (Seed.sessionOf "bob") "cms.pages.create"
           eq_refl eq_refl eq_refl).
Defined.

(** C1 as stated fails: carol holds only the roles customer and support,
    customer is granted orders.view, so the chain exists, yet the
    permission-gated procedure for orders.view does not let her in. *)
Lemma permission_decision_not_standalone :
  ~ (allows (createPermissionProcedure "orders.view")
            (Seed.request "session=carol") = true
     <-> (In "super_admin" (selectRoleNames Seed.store "carol")
          \/ grantChain Seed.store "carol" "orders.view")).
Proof.
  intros [_ H].
  assert (E : allows (createPermissionProcedure "orders.view")
                     (Seed.request "session=carol") = false) by reflexivity.
  rewrite E in H. enough (false = true) by discriminate.
  apply H. right. apply selectPermissionGrant_some. reflexivity.
Qed.

(** C2. When the resolved role names of an authenticated principal
    contain super_admin, the permission-gated procedure for any
    permission name reaches its continuation after exactly two external
    calls, the session lookup and the role select: no permission select
    is sent, whatever the role_permissions table holds (nothing is
    assumed about it, nor about how the store would answer a permission
    select), and the wrapped action runs right after those two calls. *)
Theorem super_admin_bypass (ctx : TRPCContext) (s : Session) (p : string) :
  getSession (auth ctx) (headers (req ctx)) = inr (Some s) ->
  fault (db ctx) (SelectRoleNames (id (user s))) = None ->
  In "super_admin" (selectRoleNames (tables (db ctx)) (id (user s))) ->
  allows (createPermissionProcedure p) ctx = true
  /\ trace (guard (createPermissionProcedure p) ctx)
     = [GetSession (headers (req ctx));
        DbSelect (SelectRoleNames (id (user s)))]
  /\ (forall u q,
        ~ In (DbSelect (SelectPermissionGrant u q))
             (trace (guard (createPermissionProcedure p) ctx)))
  /\ (forall R (action : AdminContext -> Async R),
        query (createPermissionProcedure p) action ctx
        = (actx <- ([GetSession (headers (req ctx));
                     DbSelect (SelectRoleNames (id (user s)))],
                    inr (mkAdminContext (mkProtectedContext s ctx)
                           (selectRoleNames (tables (db ctx))
                                            (id (user s))))) ;;
           action actx)).
Proof.
  intros Hs F Hsa.
  assert (Ea : some (selectRoleNames (tables (db ctx)) (id (user s)))
                    (includes Schema.ADMIN_ROLES) = true).
  { apply some_admin_spec. exists "super_admin". split; [assumption |].
    now left. }
  apply includes_In in Hsa.
  pose proof (guard_permission_bypass ctx s Hs p F Ea Hsa) as G.
  unfold allows. rewrite G. simpl. repeat split.
  - intros u q [H | [H | []]]; discriminate.
  - intros R action.
    now rewrite (guard_then_action _ (createPermissionProcedure_tail p)), G.
Qed.

Lemma super_admin_bypass_witness :
  roleGrants Seed.store "role_super" "products.delete" = false
  /\ allows (createPermissionProcedure "products.delete")
            (Seed.request "session=alice") = true
  /\ trace (guard (createPermissionProcedure "products.delete")
                  (Seed.request "session=alice"))
     = [GetSession "session=alice"; DbSelect (SelectRoleNames "alice")].
Proof.
  split; [reflexivity |].
  destruct (super_admin_bypass (Seed.request "session=alice")
              (Seed.sessionOf "alice") "products.delete" eq_refl eq_refl
              (or_introl eq_refl)) as [A [B _]].
  exact (conj A B).
Defined.

(** C7. If the permission-gated procedure reaches its continuation, the
    caller has a session and one of that principal's role names is
    super_admin, editor or content_manager.  A principal none of whose
    roles is an admin role is rejected with 'Admin access required',
    whatever the role_permissions table grants to those roles. *)
Theorem permission_requires_admin (ctx : TRPCContext) (p : string) :
  (allows (createPermissionProcedure p) ctx = true ->
   exists s, getSession (auth ctx) (headers (req ctx)) = inr (Some s)
     /\ exists n, In n (selectRoleNames (tables (db ctx)) (id (user s)))
                  /\ isAdminRole n)
  /\ (forall s,
        getSession (auth ctx) (headers (req ctx)) = inr (Some s) ->
        fault (db ctx) (SelectRoleNames (id (user s))) = None ->
        (forall n, In n (selectRoleNames (tables (db ctx)) (id (user s)))
                   -> ~ isAdminRole n) ->
        outcome (guard (createPermissionProcedure p) ctx)
        = inl (ThrownTRPC
                 (mkTRPCError FORBIDDEN (Some "Admin access required")))).
Proof.
  split.
  - unfold allows.
    destruct (getSession (auth ctx) (headers (req ctx)))
      as [reason | [s |]] eqn:Hs;
      [ rewrite (guard_permission_reject ctx p reason Hs); discriminate
      |
      | rewrite (guard_permission_none ctx p Hs); discriminate ].
    destruct (fault (db ctx) (SelectRoleNames (id (user s))))
      as [reason |] eqn:F;
      [rewrite (guard_permission_fault ctx s Hs p reason F); discriminate |].
    destruct (some (selectRoleNames (tables (db ctx)) (id (user s)))
                   (includes Schema.ADMIN_ROLES)) eqn:Ea;
      [| rewrite (guard_permission_not_admin ctx s Hs p F Ea); discriminate].
    intros _. exists s. split; [reflexivity |]. now apply some_admin_spec.
  - intros s Hs F H. apply some_admin_false in H.
    now rewrite (guard_permission_not_admin ctx s Hs p F H).
Qed.

Lemma permission_requires_admin_witness :
  grantChain Seed.store "carol" "orders.view"
  /\ outcome (guard (createPermissionProcedure "orders.view")
                    (Seed.request "session=carol"))
     = inl (ThrownTRPC
              (mkTRPCError FORBIDDEN (Some "Admin access required"))).
Proof.
  split; [apply selectPermissionGrant_some; reflexivity |].
  apply (proj2 (permission_requires_admin (Seed.request "session=carol")
                  "orders.view") (Seed.sessionOf "carol") eq_refl eq_refl).
  intros n H. simpl in H. unfold isAdminRole.
  destruct H as [<- | [<- | []]]; intuition discriminate.
Defined.

(** C5 (amended). An authenticated principal is assigned two roles, one
    granted permission A and the other granted permission B (the grants
    may be disjoint: nothing requires either role to carry both), and at
    least one of the principal's role names is an admin role.  Then the
    permission-gated procedure lets the principal in for A and for B:
    one matching role suffices. *)
Theorem union_of_role_grants (ctx : TRPCContext) (s : Session)
    (role1 role2 permA permB : string) :
  getSession (auth ctx) (headers (req ctx)) = inr (Some s) ->
  fault (db ctx) (SelectRoleNames (id (user s))) = None ->
  fault (db ctx) (SelectPermissionGrant (id (user s)) permA) = None ->
  fault (db ctx) (SelectPermissionGrant (id (user s)) permB) = None ->
  assigned (tables (db ctx)) (id (user s)) role1 = true ->
  assigned (tables (db ctx)) (id (user s)) role2 = true ->
  roleGrants (tables (db ctx)) role1 permA = true ->
  roleGrants (tables (db ctx)) role2 permB = true ->
  (exists n, In n (selectRoleNames (tables (db ctx)) (id (user s)))
             /\ isAdminRole n) ->
  allows (createPermissionProcedure permA) ctx = true
  /\ allows (createPermissionProcedure permB) ctx = true.
Proof.
  intros Hs F FA FB A1 A2 G1 G2 Hadm. split.
  - apply (allows_permission_iff ctx s permA Hs F FA). split; [assumption |].
    right. exact (assigned_grant_chain _ _ _ _ A1 G1).
  - apply (allows_permission_iff ctx s permB Hs F FB). split; [assumption |].
    right. exact (assigned_grant_chain _ _ _ _ A2 G2).
Qed.

Lemma union_of_role_grants_witness :
  (roleGrants Seed.store "role_editor" "media.upload" = false
   /\ roleGrants Seed.store "role_content" "cms.pages.create" = false)
  /\ allows (createPermissionProcedure "cms.pages.create")
            (Seed.request "session=bob") = true
  /\ allows (createPermissionProcedure "media.upload")
            (Seed.request "session=bob") = true.
Proof.
  split; [split; reflexivity |].
  apply (union_of_role_grants (Seed.request "session=bob")
           (Seed.sessionOf "bob") "role_editor" "role_content"
           "cms.pages.create" "media.upload");
    try reflexivity.
  exists "editor". split; [left; reflexivity | right; left; reflexivity].
Defined.

(** C5 as stated fails: carol holds customer (granted only orders.view)
    and support (granted only orders.update), two roles with disjoint
    grants, and the permission-gated procedure lets her in for neither
    permission. *)
Lemma union_blocked_without_admin_role :
  getSession Seed.authService "session=carol"
  = inr (Some (Seed.sessionOf "carol"))
  /\ assigned Seed.store "carol" "role_customer" = true
  /\ assigned Seed.store "carol" "role_support" = true
  /\ roleGrants Seed.store "role_customer" "orders.view" = true
  /\ roleGrants Seed.store "role_support" "orders.view" = false
  /\ roleGrants Seed.store "role_support" "orders.update" = true
  /\ roleGrants Seed.store "role_customer" "orders.update" = false
  /\ ~ (allows (createPermissionProcedure "orders.view")
               (Seed.request "session=carol") = true
        /\ allows (createPermissionProcedure "orders.update")
                  (Seed.request "session=carol") = true).
Proof.
  repeat (split; [reflexivity |]).
  intros [H _]. vm_compute in H. discriminate.
Qed.

(* ================================================================== *)
(** ** The cms queries                                                 *)
(* ================================================================== *)

(** C6. For any caller with a session, whatever roles the principal
    holds, and a store that answers the select, listRoles makes two
    external calls -- the session lookup and the select on roles, no
    role lookup for the caller -- and returns every row of the roles
    relation projected to (id, name, description). *)
Theorem listRoles_authenticated_only (ctx : TRPCContext) (s : Session) :
  getSession (auth ctx) (headers (req ctx)) = inr (Some s) ->
  fault (db ctx) SelectAllRoles = None ->
  cms.listRoles ctx
  = ([GetSession (headers (req ctx)); DbSelect SelectAllRoles],
     inr (map (fun r => (Schema.role_id r, Schema.role_name r,
                         Schema.role_description r))
              (Schema.roles (tables (db ctx))))).
Proof.
  intros Hs F. unfold cms.listRoles.
  rewrite (guard_then_action _ protectedProcedure_tail),
    (guard_protected_some ctx s Hs).
  unfold execute. simpl. now rewrite F.
Qed.

Lemma listRoles_authenticated_only_witness :
  selectRoleNames Seed.store "dave" = []
  /\ cms.listRoles (Seed.request "session=dave")
     = ([GetSession "session=dave"; DbSelect SelectAllRoles],
        inr [("role_super", "super_admin", Some "Full system access");
             ("role_editor", "editor", Some "Content and product management");
             ("role_content", "content_manager",
              Some "Limited content editing");
             ("role_customer", "customer", Some "Regular user account");
             ("role_support", "support", None)]).
Proof.
  split; [reflexivity |].
  exact (listRoles_authenticated_only (Seed.request "session=dave")
           (Seed.sessionOf "dave") eq_refl eq_refl).
Defined.

Lemma selectRoleRecords_none T uid :
  (forall ur, In ur (Schema.userRoles T) -> Schema.ur_userId ur <> uid) ->
  selectRoleRecords T uid = [].
Proof.
  intros H. unfold selectRoleRecords.
  destruct (filter _ (userRoles_join_roles T)) as [| [ur r] rest] eqn:E;
    [reflexivity |].
  assert (Hin : In (ur, r)
            (filter (fun p => (Schema.ur_userId (fst p) =? uid))
                    (userRoles_join_roles T)))
    by (rewrite E; now left).
  apply filter_In in Hin. destruct Hin as [Hj Eu]. simpl in Eu.
  apply String.eqb_eq in Eu. apply In_userRoles_join_roles in Hj.
  destruct Hj as [Hur _]. now destruct (H ur Hur).
Qed.

(** C10. For an authenticated principal with no row in user_roles (and a
    store that answers the select), checkAccess returns exactly
    {isAdmin: false, roles: []}. *)
Theorem checkAccess_without_roles (ctx : TRPCContext) (s : Session) :
  getSession (auth ctx) (headers (req ctx)) = inr (Some s) ->
  fault (db ctx) (SelectRoleRecords (id (user s))) = None ->
  (forall ur, In ur (Schema.userRoles (tables (db ctx))) ->
              Schema.ur_userId ur <> id (user s)) ->
  outcome (cms.checkAccess ctx) = inr (cms.mkAccessReport false []).
Proof.
  intros Hs F H. unfold cms.checkAccess.
  rewrite (guard_then_action _ protectedProcedure_tail),
    (guard_protected_some ctx s Hs).
  unfold execute. simpl. rewrite F. simpl.
  now rewrite (selectRoleRecords_none _ _ H).
Qed.

Lemma checkAccess_without_roles_witness :
  outcome (cms.checkAccess (Seed.request "session=dave"))
  = inr (cms.mkAccessReport false []).
Proof.
  apply (checkAccess_without_roles (Seed.request "session=dave")
           (Seed.sessionOf "dave") eq_refl eq_refl).
  intros ur H. simpl in H.
  repeat (destruct H as [<- | H]; [discriminate |]). destruct H.
Defined.

(* ================================================================== *)
(** ** Revocation                                                      *)
(* ================================================================== *)

Section Revocation.
Import Schema.
Variable T : Tables.
Variables uid rid p : string.
Hypothesis Sole : solelyDerivedFrom T uid rid p = true.

Let T' := revokeUserRole T uid rid.

Lemma derives_intro ur r :
  In r (Schema.roles T) -> role_id r = ur_roleId ur ->
  role_name r = "super_admin" \/ roleGrants T (role_id r) p = true ->
  derives T ur p = true.
Proof.
  intros Hr Er H. unfold derives. apply existsb_exists. exists r.
  split; [assumption |]. apply andb_true_iff. split.
  - now apply String.eqb_eq.
  - apply orb_true_iff. destruct H as [H | H]; [left | right; assumption].
    now apply String.eqb_eq.
Qed.

Lemma surviving_row_derives_nothing ur :
  In ur (Schema.userRoles T') -> ur_userId ur = uid -> derives T ur p = false.
Proof.
  intros Hin Eu. unfold T', revokeUserRole in Hin. simpl in Hin.
  apply filter_In in Hin. destruct Hin as [Hin Hkeep].
  unfold solelyDerivedFrom in Sole. rewrite forallb_forall in Sole.
  specialize (Sole ur Hin).
  apply String.eqb_eq in Eu. rewrite Eu in Sole, Hkeep. simpl in Sole, Hkeep.
  destruct (derives T ur p); [| reflexivity].
  simpl in Sole. rewrite Sole in Hkeep. discriminate.
Qed.

Lemma revoked_no_super_admin : ~ In "super_admin" (selectRoleNames T' uid).
Proof.
  intros H. apply In_selectRoleNames in H.
  destruct H as [ur [r [Hur [Hr [Er [Eu En]]]]]].
  pose proof (surviving_row_derives_nothing ur Hur Eu) as D.
  rewrite (derives_intro ur r Hr Er (or_introl En)) in D. discriminate.
Qed.

Lemma revoked_no_chain : ~ grantChain T' uid p.
Proof.
  intros [ur [r [rp [pm [Hur [Hr [Hrp [Hpm [Er [E1 [E2 [Eu Ep]]]]]]]]]]]].
  pose proof (surviving_row_derives_nothing ur Hur Eu) as D.
  rewrite (derives_intro ur r Hr Er) in D; [discriminate |].
  right. apply roleGrants_spec. exists rp, pm. auto.
Qed.

End Revocation.

(** C8. The decision is a function of the tables as they are when the
    call is made.  Let the principal be let in for permission A on some
    content of the tables in which, among the principal's user_roles
    rows, only the row to role R yields A (through a grant chain or
    through the super_admin bypass).  On the tables with that row
    deleted, the same request for A is rejected with a FORBIDDEN error. *)
Theorem revocation_is_immediate (ctx : TRPCContext) (s : Session)
    (roleId permA : string) :
  getSession (auth ctx) (headers (req ctx)) = inr (Some s) ->
  fault (db ctx) (SelectRoleNames (id (user s))) = None ->
  fault (db ctx) (SelectPermissionGrant (id (user s)) permA) = None ->
  solelyDerivedFrom (tables (db ctx)) (id (user s)) roleId permA = true ->
  allows (createPermissionProcedure permA) ctx = true ->
  let ctx' :=
    withTables ctx (revokeUserRole (tables (db ctx)) (id (user s)) roleId) in
  allows (createPermissionProcedure permA) ctx' = false
  /\ exists msg,
       outcome (guard (createPermissionProcedure permA) ctx')
       = inl (ThrownTRPC (mkTRPCError FORBIDDEN (Some msg))).
Proof.
  intros Hs F1 F2 Sole _ ctx'.
  assert (Hs' : getSession (auth ctx') (headers (req ctx')) = inr (Some s))
    by exact Hs.
  assert (F1' : fault (db ctx') (SelectRoleNames (id (user s))) = None)
    by exact F1.
  assert (F2' : fault (db ctx') (SelectPermissionGrant (id (user s)) permA)
                = None) by exact F2.
  pose proof (revoked_no_super_admin _ _ _ _ Sole) as Nsa.
  pose proof (revoked_no_chain _ _ _ _ Sole) as Nch.
  split.
  - apply not_true_is_false. intros A.
    apply (allows_permission_iff ctx' s permA Hs' F1' F2') in A.
    destruct A as [_ [A | A]]; [exact (Nsa A) | exact (Nch A)].
  - destruct (some (selectRoleNames (tables (db ctx')) (id (user s)))
                   (includes Schema.ADMIN_ROLES)) eqn:Ea.
    + assert (Esa : includes (selectRoleNames (tables (db ctx'))
                                (id (user s))) "super_admin" = false).
      { apply not_true_is_false. intros E. apply includes_In in E.
        exact (Nsa E). }
      rewrite (guard_permission_run ctx' s Hs' permA F1' Ea Esa), F2'.
      simpl. apply selectPermissionGrant_none in Nch.
      simpl in Nch. rewrite Nch. eexists. reflexivity.
    + rewrite (guard_permission_not_admin ctx' s Hs' permA F1' Ea).
      eexists. reflexivity.
Qed.

Lemma revocation_is_immediate_witness :
  allows (createPermissionProcedure "cms.pages.create")
         (Seed.request "session=erin") = true
  /\ allows (createPermissionProcedure "cms.pages.create")
            (withTables (Seed.request "session=erin")
               (revokeUserRole Seed.store "erin" "role_editor")) = false.
Proof.
  split; [reflexivity |].
  exact (proj1 (revocation_is_immediate (Seed.request "session=erin")
                  (Seed.sessionOf "erin") "role_editor" "cms.pages.create"
                  eq_refl eq_refl eq_refl eq_refl eq_refl)).
Defined.

(* ================================================================== *)
(** ** Failures at the guard boundary                                  *)
(* ================================================================== *)

Lemma runGuard_protected ctx :
  runGuard ProtectedGuard ctx
  = (_ <- guard protectedProcedure ctx ;; resolve tt).
Proof. apply (protectedProcedure_tail unit ctx). Qed.

Lemma runGuard_admin ctx :
  runGuard AdminGuard ctx = (_ <- guard adminProcedure ctx ;; resolve tt).
Proof. apply (adminProcedure_tail unit ctx). Qed.

Lemma runGuard_permission p ctx :
  runGuard (PermissionGuard p) ctx
  = (_ <- guard (createPermissionProcedure p) ctx ;; resolve tt).
Proof. apply (createPermissionProcedure_tail p unit ctx). Qed.





(** A failure of the guard is the failure of the whole call, whatever the
    wrapped action is: the action is not run and the error is not caught. *)
Lemma guard_failure_is_call_failure {C R : Type} (p : Procedure C) :
  tailCalling p ->
  forall ctx (action : C -> Async R) e,
    outcome (guard p ctx) = inl e ->
    query p action ctx = (trace (guard p ctx), inl e).
Proof.
  intros Hp ctx action e H.
  rewrite (guard_then_action p Hp). now apply await_throws.
Qed.

(* ================================================================== *)
(** ** Further properties of the guards and of the cms queries         *)
(* ================================================================== *)

Lemma selectRoleRecords_names T uid :
  map fst (selectRoleRecords T uid) = selectRoleNames T uid.
Proof.
  unfold selectRoleRecords, selectRoleNames. rewrite map_map. reflexivity.
Qed.

Lemma checkAccess_run ctx s :
  getSession (auth ctx) (headers (req ctx)) = inr (Some s) ->
  cms.checkAccess ctx
  = ([GetSession (headers (req ctx));
      DbSelect (SelectRoleRecords (id (user s)))],
     match fault (db ctx) (SelectRoleRecords (id (user s))) with
     | Some reason => inl (ThrownByStore reason)
     | None =>
         inr (cms.mkAccessReport
                (some (selectRoleNames (tables (db ctx)) (id (user s)))
                      (includes Schema.ADMIN_ROLES))
                (selectRoleNames (tables (db ctx)) (id (user s))))
     end).
Proof.
  intros Hs. unfold cms.checkAccess.
  rewrite (guard_then_action _ protectedProcedure_tail),
    (guard_protected_some ctx s Hs).
  unfold execute. simpl.
  destruct (fault (db ctx) (SelectRoleRecords (id (user s)))); simpl;
    [reflexivity |].
  now rewrite selectRoleRecords_names.
Qed.

Lemma listRoles_run ctx s :
  getSession (auth ctx) (headers (req ctx)) = inr (Some s) ->
  cms.listRoles ctx
  = ([GetSession (headers (req ctx)); DbSelect SelectAllRoles],
     match fault (db ctx) SelectAllRoles with
     | Some reason => inl (ThrownByStore reason)
     | None => inr (selectAllRoles (tables (db ctx)))
     end).
Proof.
  intros Hs. unfold cms.listRoles.
  rewrite (guard_then_action _ protectedProcedure_tail),
    (guard_protected_some ctx s Hs).
  unfold execute. simpl.
  now destruct (fault (db ctx) SelectAllRoles).
Qed.

Lemma cms_queries_none ctx :
  getSession (auth ctx) (headers (req ctx)) = inr None ->
  cms.checkAccess ctx
  = ([GetSession (headers (req ctx))], inl Unauthenticated)
  /\ cms.listRoles ctx
     = ([GetSession (headers (req ctx))], inl Unauthenticated).
Proof.
  intros Hs. unfold cms.checkAccess, cms.listRoles.
  rewrite !(guard_then_action _ protectedProcedure_tail),
    (guard_protected_none ctx Hs).
  split; reflexivity.
Qed.

(** X1. For a caller with a session and a store that answers both role
    selects, checkAccess resolves; its isAdmin flag is true exactly when
    adminProcedure lets the same request through, and its roles are the
    role names adminProcedure hands to the wrapped action as
    ctx.userRoles. *)
Theorem checkAccess_agrees_with_adminProcedure
    (ctx : TRPCContext) (s : Session) :
  getSession (auth ctx) (headers (req ctx)) = inr (Some s) ->
  fault (db ctx) (SelectRoleRecords (id (user s))) = None ->
  fault (db ctx) (SelectRoleNames (id (user s))) = None ->
  exists report,
    outcome (cms.checkAccess ctx) = inr report
    /\ cms.isAdmin report = allows adminProcedure ctx
    /\ (forall actx, outcome (guard adminProcedure ctx) = inr actx ->
                     userRoles actx = cms.roles report).
Proof.
  intros Hs F1 F2. rewrite (checkAccess_run ctx s Hs), F1. simpl.
  eexists. split; [reflexivity |]. simpl. unfold allows.
  rewrite (guard_admin_run ctx s Hs F2). simpl.
  destruct (some _ _); simpl; split; try reflexivity.
  - intros actx [= <-]. reflexivity.
  - intros actx [=].
Qed.

Lemma checkAccess_agrees_with_adminProcedure_witness :
  exists report,
    outcome (cms.checkAccess (Seed.request "session=bob")) = inr report
    /\ cms.isAdmin report = allows adminProcedure (Seed.request "session=bob")
    /\ (forall actx,
          outcome (guard adminProcedure (Seed.request "session=bob"))
          = inr actx ->
          userRoles actx = cms.roles report).
Proof.
  exact (checkAccess_agrees_with_adminProcedure (Seed.request "session=bob")
           (Seed.sessionOf "bob") eq_refl eq_refl eq_refl).
Defined.

Lemma cms_queries_reject ctx reason :
  getSession (auth ctx) (headers (req ctx)) = inl reason ->
  cms.checkAccess ctx
  = ([GetSession (headers (req ctx))], inl (ThrownByAuth reason))
  /\ cms.listRoles ctx
     = ([GetSession (headers (req ctx))], inl (ThrownByAuth reason)).
Proof.
  intros Hs. unfold cms.checkAccess, cms.listRoles.
  rewrite !(guard_then_action _ protectedProcedure_tail),
    (guard_protected_reject ctx reason Hs).
  split; reflexivity.
Qed.

(** X2. The two cms queries raise no authorization error of their own:
    when checkAccess or listRoles fails, the error is UNAUTHORIZED (no
    session), or the error with which the session lookup rejected, or
    the error with which the store rejected the select; it is never a
    FORBIDDEN error, whatever roles the caller holds. *)
Theorem cms_queries_never_forbidden (ctx : TRPCContext) (e : Thrown) :
  outcome (cms.checkAccess ctx) = inl e
  \/ outcome (cms.listRoles ctx) = inl e ->
  (e = ThrownTRPC (mkTRPCError UNAUTHORIZED None)
   \/ (exists reason,
         getSession (auth ctx) (headers (req ctx)) = inl reason
         /\ e = ThrownByAuth reason)
   \/ exists q reason, fault (db ctx) q = Some reason
                       /\ e = ThrownByStore reason)
  /\ forall msg, e <> ThrownTRPC (mkTRPCError FORBIDDEN msg).
Proof.
  intros H.
  assert (K : e = ThrownTRPC (mkTRPCError UNAUTHORIZED None)
              \/ (exists reason,
                    getSession (auth ctx) (headers (req ctx)) = inl reason
                    /\ e = ThrownByAuth reason)
              \/ exists q reason, fault (db ctx) q = Some reason
                                  /\ e = ThrownByStore reason).
  { destruct (getSession (auth ctx) (headers (req ctx)))
      as [reason0 | [s |]] eqn:Hs.
    - destruct (cms_queries_reject ctx reason0 Hs) as [E1 E2].
      rewrite E1, E2 in H. simpl in H. right. left. exists reason0.
      split; [reflexivity |].
      destruct H as [H | H]; now injection H as <-.
    - rewrite (checkAccess_run ctx s Hs), (listRoles_run ctx s Hs) in H.
      simpl in H. right. right. destruct H as [H | H].
      + destruct (fault (db ctx) (SelectRoleRecords (id (user s))))
          as [reason |] eqn:F; [| discriminate].
        injection H as <-. eauto.
      + destruct (fault (db ctx) SelectAllRoles) as [reason |] eqn:F;
          [| discriminate].
        injection H as <-. eauto.
    - destruct (cms_queries_none ctx Hs) as [E1 E2].
      rewrite E1, E2 in H. simpl in H. left.
      destruct H as [H | H]; now injection H as <-. }
  split; [exact K |].
  intros msg ->.
  destruct K as [K | [[reason [_ K]] | [q [reason [_ K]]]]]; discriminate.
Qed.

Lemma cms_queries_never_forbidden_witness :
  outcome (cms.checkAccess (Offline.request "session=carol"))
  = inl (ThrownByStore "connect ECONNREFUSED")
  /\ forall msg,
       ThrownByStore "connect ECONNREFUSED"
       <> ThrownTRPC (mkTRPCError FORBIDDEN msg).
Proof.
  split; [reflexivity |].
  exact (proj2 (cms_queries_never_forbidden
                  (Offline.request "session=carol")
                  (ThrownByStore "connect ECONNREFUSED")
                  (or_introl eq_refl))).
Defined.

(** The run of the permission guard for a caller with a session, in one
    equation. *)
Lemma guard_permission_cases ctx s p :
  getSession (auth ctx) (headers (req ctx)) = inr (Some s) ->
  guard (createPermissionProcedure p) ctx
  = match fault (db ctx) (SelectRoleNames (id (user s))) with
    | Some reason =>
        ([GetSession (headers (req ctx));
          DbSelect (SelectRoleNames (id (user s)))],
         inl (ThrownByStore reason))
    | None =>
        let names := selectRoleNames (tables (db ctx)) (id (user s)) in
        if some names (includes Schema.ADMIN_ROLES) then
          if includes names "super_admin" then
            ([GetSession (headers (req ctx));
              DbSelect (SelectRoleNames (id (user s)))],
             inr (mkAdminContext (mkProtectedContext s ctx) names))
          else
            ([GetSession (headers (req ctx));
              DbSelect (SelectRoleNames (id (user s)));
              DbSelect (SelectPermissionGrant (id (user s)) p)],
             match fault (db ctx) (SelectPermissionGrant (id (user s)) p) with
             | Some reason => inl (ThrownByStore reason)
             | None =>
                 if (length (selectPermissionGrant (tables (db ctx))
                               (id (user s)) p) =? 0)%nat
                 then inl (ForbiddenMissingPermission p)
                 else inr (mkAdminContext (mkProtectedContext s ctx) names)
             end)
        else
          ([GetSession (headers (req ctx));
            DbSelect (SelectRoleNames (id (user s)))],
           inl ForbiddenNotAdmin)
    end.
Proof.
  intros Hs.
  destruct (fault (db ctx) (SelectRoleNames (id (user s))))
    as [reason |] eqn:F1.
  - exact (guard_permission_fault ctx s Hs p reason F1).
  - cbv zeta.
    destruct (some (selectRoleNames (tables (db ctx)) (id (user s)))
                   (includes Schema.ADMIN_ROLES)) eqn:Ea.
    + destruct (includes (selectRoleNames (tables (db ctx)) (id (user s)))
                         "super_admin") eqn:Esa.
      * exact (guard_permission_bypass ctx s Hs p F1 Ea Esa).
      * exact (guard_permission_run ctx s Hs p F1 Ea Esa).
    + exact (guard_permission_not_admin ctx s Hs p F1 Ea).
Qed.

(** X3. Whenever the permission-gated procedure reaches the wrapped
    action, the context it hands over is the request's own context
    extended with the session that was looked up and with userRoles set
    to the role names read for that session's user: the action sees the
    caller's identity and roles, and the same req, db and auth. *)
Theorem permission_context_handed_over (ctx : TRPCContext) (p : string)
    (actx : AdminContext) :
  outcome (guard (createPermissionProcedure p) ctx) = inr actx ->
  exists s,
    getSession (auth ctx) (headers (req ctx)) = inr (Some s)
    /\ actx = mkAdminContext (mkProtectedContext s ctx)
                (selectRoleNames (tables (db ctx)) (id (user s))).
Proof.
  destruct (getSession (auth ctx) (headers (req ctx)))
    as [reason0 | [s |]] eqn:Hs.
  1: { rewrite (guard_permission_reject ctx p reason0 Hs). discriminate. }
  - rewrite (guard_permission_cases ctx s p Hs). intros H. exists s.
    split; [reflexivity |].
    destruct (fault (db ctx) (SelectRoleNames (id (user s))));
      [discriminate H |].
    cbv zeta in H.
    destruct (some _ _); [| discriminate H].
    destruct (includes _ "super_admin"); simpl in H.
    + now injection H as <-.
    + destruct (fault (db ctx) (SelectPermissionGrant (id (user s)) p));
        [discriminate H |].
      destruct (_ =? _)%nat; [discriminate H |]. now injection H as <-.
  - rewrite (guard_permission_none ctx p Hs). discriminate.
Qed.

Lemma permission_context_handed_over_witness :
  exists s,
    getSession Seed.authService "session=bob" = inr (Some s)
    /\ mkAdminContext
         (mkProtectedContext (Seed.sessionOf "bob")
                             (Seed.request "session=bob"))
         ["editor"; "content_manager"]
       = mkAdminContext (mkProtectedContext s (Seed.request "session=bob"))
           (selectRoleNames Seed.store (id (user s))).
Proof.
  exact (permission_context_handed_over (Seed.request "session=bob")
           "cms.pages.create" _ eq_refl).
Defined.

(** X4. For a caller with a session the permission guard always starts
    with the session lookup followed by one role select.  The permission
    select comes third and is sent exactly when the role select was
    answered, one of the role names is an admin role, and super_admin is
    not among them; nothing else is ever sent. *)
Theorem permission_guard_call_order (ctx : TRPCContext) (s : Session)
    (p : string) :
  getSession (auth ctx) (headers (req ctx)) = inr (Some s) ->
  let names := selectRoleNames (tables (db ctx)) (id (user s)) in
  let sent :=
    match fault (db ctx) (SelectRoleNames (id (user s))) with
    | Some _ => false
    | None => some names (includes Schema.ADMIN_ROLES)
              && negb (includes names "super_admin")
    end in
  trace (guard (createPermissionProcedure p) ctx)
  = ([GetSession (headers (req ctx));
      DbSelect (SelectRoleNames (id (user s)))]
     ++ (if sent then [DbSelect (SelectPermissionGrant (id (user s)) p)]
         else []))%list.
Proof.
  intros Hs names sent. subst names sent.
  rewrite (guard_permission_cases ctx s p Hs).
  destruct (fault (db ctx) (SelectRoleNames (id (user s)))); [reflexivity |].
  cbv zeta. destruct (some _ _); [| reflexivity].
  now destruct (includes _ "super_admin").
Qed.

Lemma permission_guard_call_order_witness :
  trace (guard (createPermissionProcedure "products.delete")
               (Seed.request "session=erin"))
  = [GetSession "session=erin"; DbSelect (SelectRoleNames "erin");
     DbSelect (SelectPermissionGrant "erin" "products.delete")].
Proof.
  exact (permission_guard_call_order (Seed.request "session=erin")
           (Seed.sessionOf "erin") "products.delete" eq_refl).
Defined.

(** X5. Permission names are matched exactly.  If no row of the
    permissions table carries exactly the required name, a caller who
    does not hold super_admin is never let through by the
    permission-gated procedure, whatever is granted under other names
    (a prefix, a wildcard pattern, another spelling). *)
Theorem permission_name_exact_match (ctx : TRPCContext) (s : Session)
    (p : string) :
  getSession (auth ctx) (headers (req ctx)) = inr (Some s) ->
  ~ In "super_admin" (selectRoleNames (tables (db ctx)) (id (user s))) ->
  (forall pm, In pm (Schema.permissions (tables (db ctx))) ->
              Schema.perm_name pm <> p) ->
  allows (createPermissionProcedure p) ctx = false.
Proof.
  intros Hs Nsa Hp. unfold allows.
  rewrite (guard_permission_cases ctx s p Hs).
  destruct (fault (db ctx) (SelectRoleNames (id (user s)))); [reflexivity |].
  cbv zeta. destruct (some _ _); [| reflexivity].
  destruct (includes _ "super_admin") eqn:Esa.
  - apply includes_In in Esa. contradiction.
  - simpl.
    destruct (fault (db ctx) (SelectPermissionGrant (id (user s)) p));
      [reflexivity |].
    assert (N : ~ grantChain (tables (db ctx)) (id (user s)) p).
    { intros [ur [r [rp [pm [_ [_ [_ [Hpm [_ [_ [_ [_ Ep]]]]]]]]]]]].
      exact (Hp pm Hpm Ep). }
    apply selectPermissionGrant_none in N. now rewrite N.
Qed.

Lemma permission_name_exact_match_witness :
  allows (createPermissionProcedure "cms.pages.create")
         (Seed.request "session=erin") = true
  /\ allows (createPermissionProcedure "cms.pages")
            (Seed.request "session=erin") = false
  /\ allows (createPermissionProcedure "cms.pages.*")
            (Seed.request "session=erin") = false.
Proof.
  split; [reflexivity |]. split.
  - apply (permission_name_exact_match (Seed.request "session=erin")
             (Seed.sessionOf "erin") "cms.pages" eq_refl).
    + simpl. intuition discriminate.
    + intros pm H. simpl in H.
      repeat (destruct H as [<- | H]; [discriminate |]). destruct H.
  - apply (permission_name_exact_match (Seed.request "session=erin")
             (Seed.sessionOf "erin") "cms.pages.*" eq_refl).
    + simpl. intuition discriminate.
    + intros pm H. simpl in H.
      repeat (destruct H as [<- | H]; [discriminate |]). destruct H.
Defined.

(** X6. For a caller with a session and a store that answers, the
    permission-gated procedure fails with the FORBIDDEN error naming the
    required permission exactly when the caller passes the admin gate,
    does not hold super_admin, and no grant chain leads from the caller
    to a permission of that name. *)
Theorem missing_permission_error_iff (ctx : TRPCContext) (s : Session)
    (p : string) :
  getSession (auth ctx) (headers (req ctx)) = inr (Some s) ->
  fault (db ctx) (SelectRoleNames (id (user s))) = None ->
  fault (db ctx) (SelectPermissionGrant (id (user s)) p) = None ->
  (outcome (guard (createPermissionProcedure p) ctx)
   = inl (ThrownTRPC (mkTRPCError FORBIDDEN
            (Some ("Permission '" ++ p ++ "' required"))))
   <-> (exists n, In n (selectRoleNames (tables (db ctx)) (id (user s)))
                  /\ isAdminRole n)
       /\ ~ In "super_admin" (selectRoleNames (tables (db ctx)) (id (user s)))
       /\ ~ grantChain (tables (db ctx)) (id (user s)) p).
Proof.
  intros Hs F1 F2.
  rewrite (guard_permission_cases ctx s p Hs), F1.
  rewrite <- some_admin_spec, <- includes_In, <- selectPermissionGrant_none.
  cbv zeta. destruct (some _ _).
  - destruct (includes _ "super_admin"); simpl.
    + split; [discriminate | intros [_ [H _]]; now contradiction H].
    + rewrite F2. destruct (_ =? _)%nat.
      * split; [intros _ | reflexivity]. repeat split; congruence.
      * split; [discriminate | intros [_ [_ H]]; discriminate].
  - simpl. split; [discriminate | intros [H _]; discriminate].
Qed.

Lemma missing_permission_error_iff_witness :
  outcome (guard (createPermissionProcedure "products.delete")
                 (Seed.request "session=erin"))
  = inl (ThrownTRPC (mkTRPCError FORBIDDEN
           (Some "Permission 'products.delete' required")))
  <-> (exists n, In n (selectRoleNames Seed.store "erin") /\ isAdminRole n)
      /\ ~ In "super_admin" (selectRoleNames Seed.store "erin")
      /\ ~ grantChain Seed.store "erin" "products.delete".
Proof.
  exact (missing_permission_error_iff (Seed.request "session=erin")
           (Seed.sessionOf "erin") "products.delete"
           eq_refl eq_refl eq_refl).
Defined.

(* ================================================================== *)
(** ** The decision as a function of the set of rows                   *)
(* ================================================================== *)

Lemma existsb_same_elements {A : Type} (f : A -> bool) (l l' : list A) :
  (forall x, In x l <-> In x l') -> existsb f l = existsb f l'.
Proof.
  intros H. apply eq_true_iff_eq. rewrite !existsb_exists.
  split; intros [x [Hx Hf]]; exists x; split; try assumption; now apply H.
Qed.

Lemma existsb_more_elements {A : Type} (f : A -> bool) (l l' : list A) :
  incl l l' -> existsb f l = true -> existsb f l' = true.
Proof.
  intros H. rewrite !existsb_exists. intros [x [Hx Hf]]. exists x. auto.
Qed.

Lemma holdsRole_incl T T' uid n :
  tablesIncl T T' -> holdsRole T uid n -> holdsRole T' uid n.
Proof.
  intros [Hr [_ [_ Hu]]] [ur [r [Hur [Hrr H]]]].
  exists ur, r. split; [now apply Hu |]. split; [now apply Hr | exact H].
Qed.

Lemma grantChain_incl T T' uid p :
  tablesIncl T T' -> grantChain T uid p -> grantChain T' uid p.
Proof.
  intros [Hr [Hp [Hrp Hu]]] [ur [r [rp [pm [Hur [Hrr [Hrpp [Hpm H]]]]]]]].
  exists ur, r, rp, pm.
  split; [now apply Hu |]. split; [now apply Hr |].
  split; [now apply Hrp |]. split; [now apply Hp | exact H].
Qed.

Lemma In_assignmentsOf T uid ur :
  In ur (assignmentsOf T uid)
  <-> In ur (Schema.userRoles T) /\ Schema.ur_userId ur = uid.
Proof.
  unfold assignmentsOf. rewrite filter_In. now rewrite String.eqb_eq.
Qed.

Lemma holdsRole_sameFor T T' uid n :
  sameFor uid T T' -> holdsRole T uid n -> holdsRole T' uid n.
Proof.
  intros [Er [_ [_ Ea]]] [ur [r [Hur [Hrr [E1 [E2 E3]]]]]].
  exists ur, r.
  assert (Hin : In ur (assignmentsOf T' uid))
    by (rewrite <- Ea; now apply In_assignmentsOf).
  apply In_assignmentsOf in Hin. rewrite <- Er. tauto.
Qed.

Lemma grantChain_sameFor T T' uid p :
  sameFor uid T T' -> grantChain T uid p -> grantChain T' uid p.
Proof.
  intros [Er [Ep [Erp Ea]]]
         [ur [r [rp [pm [Hur [Hrr [Hrpp [Hpm [E1 [E2 [E3 [E4 E5]]]]]]]]]]]].
  exists ur, r, rp, pm.
  assert (Hin : In ur (assignmentsOf T' uid))
    by (rewrite <- Ea; now apply In_assignmentsOf).
  apply In_assignmentsOf in Hin. rewrite <- Er, <- Ep, <- Erp. tauto.
Qed.

Lemma sameFor_sym uid T T' : sameFor uid T T' -> sameFor uid T' T.
Proof. unfold sameFor. intuition congruence. Qed.

(** Two contents of the tables on which the caller holds the same role
    names and has the same grant chains give the same run of a guard. *)
Lemma runGuard_same_reading k ctx T' :
  (forall s, getSession (auth ctx) (headers (req ctx)) = inr (Some s) ->
     (forall n, holdsRole (tables (db ctx)) (id (user s)) n
                <-> holdsRole T' (id (user s)) n)
     /\ (forall p, grantChain (tables (db ctx)) (id (user s)) p
                   <-> grantChain T' (id (user s)) p)) ->
  runGuard k (withTables ctx T') = runGuard k ctx.
Proof.
  intros H.
  destruct (getSession (auth ctx) (headers (req ctx)))
    as [reason0 | [s |]] eqn:Hs.
  1: { destruct k as [| | p];
       [ rewrite !runGuard_protected,
           (guard_protected_reject ctx reason0 Hs),
           (guard_protected_reject (withTables ctx T') reason0 Hs)
       | rewrite !runGuard_admin, (guard_admin_reject ctx reason0 Hs),
           (guard_admin_reject (withTables ctx T') reason0 Hs)
       | rewrite !runGuard_permission,
           (guard_permission_reject ctx p reason0 Hs),
           (guard_permission_reject (withTables ctx T') p reason0 Hs) ];
       reflexivity. }
  2: { destruct k as [| | p];
       [ rewrite !runGuard_protected,
           (guard_protected_none ctx Hs),
           (guard_protected_none (withTables ctx T') Hs)
       | rewrite !runGuard_admin, (guard_admin_none ctx Hs),
           (guard_admin_none (withTables ctx T') Hs)
       | rewrite !runGuard_permission, (guard_permission_none ctx p Hs),
           (guard_permission_none (withTables ctx T') p Hs) ];
       reflexivity. }
  destruct (H s eq_refl) as [Hn Hc]. clear H.
  assert (Hs' : getSession (auth (withTables ctx T'))
                  (headers (req (withTables ctx T'))) = inr (Some s))
    by exact Hs.
  assert (Hnames : forall n,
            In n (selectRoleNames T' (id (user s)))
            <-> In n (selectRoleNames (tables (db ctx)) (id (user s)))).
  { intros n. rewrite !In_selectRoleNames. symmetry. apply Hn. }
  assert (Ea : some (selectRoleNames T' (id (user s)))
                    (includes Schema.ADMIN_ROLES)
               = some (selectRoleNames (tables (db ctx)) (id (user s)))
                      (includes Schema.ADMIN_ROLES))
    by (apply existsb_same_elements; exact Hnames).
  assert (Esa : includes (selectRoleNames T' (id (user s))) "super_admin"
                = includes (selectRoleNames (tables (db ctx)) (id (user s)))
                           "super_admin")
    by (apply existsb_same_elements; exact Hnames).
  destruct k as [| | p].
  - rewrite !runGuard_protected, (guard_protected_some ctx s Hs),
      (guard_protected_some (withTables ctx T') s Hs').
    reflexivity.
  - rewrite !runGuard_admin.
    destruct (fault (db ctx) (SelectRoleNames (id (user s))))
      as [reason |] eqn:F1.
    + rewrite (guard_admin_fault ctx s Hs reason F1),
        (guard_admin_fault (withTables ctx T') s Hs' reason F1).
      reflexivity.
    + rewrite (guard_admin_run ctx s Hs F1),
        (guard_admin_run (withTables ctx T') s Hs' F1).
      simpl. rewrite Ea.
      destruct (some (selectRoleNames (tables (db ctx)) (id (user s)))
                     (includes Schema.ADMIN_ROLES)); reflexivity.
  - rewrite !runGuard_permission.
    rewrite (guard_permission_cases ctx s p Hs),
      (guard_permission_cases (withTables ctx T') s p Hs').
    simpl. rewrite Ea, Esa.
    assert (El : (length (selectPermissionGrant T' (id (user s)) p) =? 0)%nat
                 = (length (selectPermissionGrant (tables (db ctx))
                              (id (user s)) p) =? 0)%nat).
    { apply eq_true_iff_eq. rewrite !selectPermissionGrant_none.
      now rewrite (Hc p). }
    rewrite El.
    destruct (fault (db ctx) (SelectRoleNames (id (user s))));
      [reflexivity |].
    destruct (some (selectRoleNames (tables (db ctx)) (id (user s)))
                   (includes Schema.ADMIN_ROLES)); [| reflexivity].
    destruct (includes (selectRoleNames (tables (db ctx)) (id (user s)))
                       "super_admin"); [reflexivity |].
    destruct (fault (db ctx) (SelectPermissionGrant (id (user s)) p));
      [reflexivity |].
    destruct (length (selectPermissionGrant (tables (db ctx))
                        (id (user s)) p) =? 0)%nat; reflexivity.
Qed.

(** X7. A guard reads, of the user_roles table, only the rows of the
    caller: on any other content of the tables that has the same roles,
    permissions and role_permissions rows and the same user_roles rows
    for the caller, every guard makes the same external calls and ends
    the same way.  Assigning roles to, or revoking roles from, other
    principals changes nothing for this one. *)
Theorem decision_reads_only_own_assignments (k : GuardKind)
    (ctx : TRPCContext) (s : Session) (T' : Schema.Tables) :
  getSession (auth ctx) (headers (req ctx)) = inr (Some s) ->
  sameFor (id (user s)) (tables (db ctx)) T' ->
  runGuard k (withTables ctx T') = runGuard k ctx.
Proof.
  intros Hs Hsame. apply runGuard_same_reading.
  intros s' Hs'. rewrite Hs in Hs'. injection Hs' as <-.
  pose proof (sameFor_sym _ _ _ Hsame) as Hsame'.
  split; intros x; split.
  - now apply holdsRole_sameFor.
  - now apply holdsRole_sameFor.
  - now apply grantChain_sameFor.
  - now apply grantChain_sameFor.
Qed.

Lemma decision_reads_only_own_assignments_witness :
  runGuard (PermissionGuard "orders.view")
    (withTables (Seed.request "session=carol")
       (Schema.mkTables Seed.seedRoles Seed.seedPermissions
          Seed.seedRolePermissions
          (Schema.mkUserRole "mallory" "role_super" 7
           :: removelast Seed.seedUserRoles)))
  = runGuard (PermissionGuard "orders.view") (Seed.request "session=carol").
Proof.
  apply (decision_reads_only_own_assignments
           (PermissionGuard "orders.view") (Seed.request "session=carol")
           (Seed.sessionOf "carol")).
  - reflexivity.
  - repeat split; reflexivity.
Defined.

Lemma names_incl T T' uid :
  tablesIncl T T' ->
  incl (selectRoleNames T uid) (selectRoleNames T' uid).
Proof.
  intros H n Hn. apply In_selectRoleNames.
  apply (holdsRole_incl T T' uid n H). now apply In_selectRoleNames.
Qed.

(** X8. Adding rows never takes access away: if a guard lets a request
    through on some content of the tables, it lets the same request
    through on any content that has all those rows and possibly more
    (more roles, permissions, grants or assignments). *)
Theorem adding_rows_never_revokes (k : GuardKind) (ctx : TRPCContext)
    (T' : Schema.Tables) :
  tablesIncl (tables (db ctx)) T' ->
  outcome (runGuard k ctx) = inr tt ->
  outcome (runGuard k (withTables ctx T')) = inr tt.
Proof.
  intros Hincl.
  destruct (getSession (auth ctx) (headers (req ctx)))
    as [reason0 | [s |]] eqn:Hs.
  1: { destruct k as [| | p];
       [ rewrite runGuard_protected, (guard_protected_reject ctx reason0 Hs)
       | rewrite runGuard_admin, (guard_admin_reject ctx reason0 Hs)
       | rewrite runGuard_permission,
           (guard_permission_reject ctx p reason0 Hs) ];
       discriminate. }
  2: { destruct k as [| | p];
       [ rewrite runGuard_protected, (guard_protected_none ctx Hs)
       | rewrite runGuard_admin, (guard_admin_none ctx Hs)
       | rewrite runGuard_permission, (guard_permission_none ctx p Hs) ];
       discriminate. }
  assert (Hs' : getSession (auth (withTables ctx T'))
                  (headers (req (withTables ctx T'))) = inr (Some s))
    by exact Hs.
  pose proof (names_incl _ _ (id (user s)) Hincl) as Hn.
  destruct k as [| | p].
  - rewrite !runGuard_protected, (guard_protected_some ctx s Hs),
      (guard_protected_some (withTables ctx T') s Hs').
    trivial.
  - rewrite !runGuard_admin.
    destruct (fault (db ctx) (SelectRoleNames (id (user s))))
      as [reason |] eqn:F1.
    + rewrite (guard_admin_fault ctx s Hs reason F1). discriminate.
    + rewrite (guard_admin_run ctx s Hs F1),
        (guard_admin_run (withTables ctx T') s Hs' F1).
      destruct (some (selectRoleNames (tables (db ctx)) (id (user s)))
                     (includes Schema.ADMIN_ROLES)) eqn:Ea;
        [| discriminate].
      apply (existsb_more_elements _ _ _ Hn) in Ea.
      simpl in Ea |- *. unfold some in *. now rewrite Ea.
  - rewrite !runGuard_permission.
    rewrite (guard_permission_cases ctx s p Hs),
      (guard_permission_cases (withTables ctx T') s p Hs').
    simpl.
    destruct (fault (db ctx) (SelectRoleNames (id (user s))));
      [discriminate |].
    destruct (some (selectRoleNames (tables (db ctx)) (id (user s)))
                   (includes Schema.ADMIN_ROLES)) eqn:Ea;
      [| discriminate].
    apply (existsb_more_elements _ _ _ Hn) in Ea.
    unfold some. rewrite Ea.
    destruct (includes (selectRoleNames T' (id (user s))) "super_admin")
      eqn:Esa'; [trivial |].
    destruct (includes (selectRoleNames (tables (db ctx)) (id (user s)))
                       "super_admin") eqn:Esa.
    + apply (existsb_more_elements _ _ _ Hn) in Esa.
      unfold includes in Esa'. congruence.
    + destruct (fault (db ctx) (SelectPermissionGrant (id (user s)) p));
        [discriminate |].
      destruct (length (selectPermissionGrant (tables (db ctx))
                          (id (user s)) p) =? 0)%nat eqn:El;
        [discriminate |].
      apply selectPermissionGrant_some in El.
      apply (grantChain_incl _ T' _ _ Hincl) in El.
      apply selectPermissionGrant_some in El. now rewrite El.
Qed.

Lemma adding_rows_never_revokes_witness :
  outcome (runGuard (PermissionGuard "products.delete")
                    (Seed.request "session=erin"))
  = inl (ForbiddenMissingPermission "products.delete")
  /\ outcome (runGuard (PermissionGuard "cms.pages.create")
       (withTables (Seed.request "session=erin")
          (Schema.mkTables Seed.seedRoles Seed.seedPermissions
             (Schema.mkRolePermission "role_editor" "p5" 8
              :: Seed.seedRolePermissions)
             Seed.seedUserRoles)))
     = inr tt.
Proof.
  split; [reflexivity |].
  apply (adding_rows_never_revokes (PermissionGuard "cms.pages.create")
           (Seed.request "session=erin")).
  - repeat split; try apply incl_refl. apply incl_tl, incl_refl.
  - reflexivity.
Defined.

(** X9. The run of a guard depends only on which rows the tables hold,
    not on their order nor on how often a row occurs: two contents with
    the same rows in each table give the same external calls and the same
    result. *)
Theorem decision_ignores_order_and_duplicates (k : GuardKind)
    (ctx : TRPCContext) (T' : Schema.Tables) :
  tablesIncl (tables (db ctx)) T' ->
  tablesIncl T' (tables (db ctx)) ->
  runGuard k (withTables ctx T') = runGuard k ctx.
Proof.
  intros H1 H2. apply runGuard_same_reading. intros s _.
  split; intros x; split.
  - now apply holdsRole_incl.
  - now apply holdsRole_incl.
  - now apply grantChain_incl.
  - now apply grantChain_incl.
Qed.

Lemma decision_ignores_order_and_duplicates_witness :
  runGuard (PermissionGuard "media.upload")
    (withTables (Seed.request "session=bob")
       (Schema.mkTables Seed.seedRoles Seed.seedPermissions
          Seed.seedRolePermissions
          (Schema.mkUserRole "bob" "role_content" 3
           :: rev Seed.seedUserRoles)))
  = runGuard (PermissionGuard "media.upload") (Seed.request "session=bob").
Proof.
  apply (decision_ignores_order_and_duplicates
           (PermissionGuard "media.upload") (Seed.request "session=bob")).
  - repeat split; try apply incl_refl.
    apply incl_tl. intros x Hx. now apply in_rev in Hx.
  - repeat split; try apply incl_refl.
    intros x [<- | Hx]; [| now apply in_rev].
    simpl. tauto.
Defined.

(* ================================================================== *)
(** ** The CMS barrier and its hooks                                   *)
(* ================================================================== *)

Section BarrierProperties.
Import CmsBarrier.
Variable encodeURIComponent : string -> string.

Lemma barrier_children_data (session : SessionState)
    (pathname : string) (cmsCheck : QueryResult cms.AccessReport) :
  CMSBarrier encodeURIComponent session pathname cmsCheck = Children
  <-> (exists s, session = SessionOf s)
      /\ isPending cmsCheck = false
      /\ isError cmsCheck = false
      /\ exists report, data cmsCheck = Some report
                        /\ cms.isAdmin report = true.
Proof.
  unfold CMSBarrier, dataIsAdmin.
  destruct session as [| | s].
  - split; [discriminate | intros [[s E] _]; discriminate].
  - split; [discriminate | intros [[s E] _]; discriminate].
  - destruct cmsCheck as [pending err [report |]]; simpl;
      destruct pending, err; simpl;
      try (split; [discriminate | intros [_ [A [B _]]]; discriminate]).
    + destruct (cms.isAdmin report) eqn:E; simpl.
      * split; [intros _ | reflexivity].
        repeat split; eauto.
      * split; [discriminate |].
        intros [_ [_ [_ [r [[= <-] H]]]]]. congruence.
    + split; [discriminate |].
      intros [_ [_ [_ [r [H _]]]]]. discriminate.
Qed.

(** X10. The barrier renders the protected children exactly when the
    session is loaded and present, the checkAccess query is neither
    pending nor failed, and its data says isAdmin; in every other state
    (no data, isAdmin false, error, loading, signed out) the children
    are not rendered. *)
Theorem CMSBarrier_children_iff (session : SessionState)
    (pathname : string) (cmsCheck : QueryResult cms.AccessReport) :
  CMSBarrier encodeURIComponent session pathname cmsCheck = Children
  <-> (exists s, session = SessionOf s)
      /\ isPending cmsCheck = false
      /\ isError cmsCheck = false
      /\ exists report, data cmsCheck = Some report
                        /\ cms.isAdmin report = true.
Proof. exact (barrier_children_data session pathname cmsCheck). Qed.

(** X11. Client gate and server gate agree.  When the query result
    carries the answer the server gave to checkAccess for a request, and
    the store also answers the role select of adminProcedure, the barrier
    renders the children for a signed-in user exactly when adminProcedure
    lets that same request through. *)
Theorem CMSBarrier_matches_admin_gate (ctx : TRPCContext) (s s' : Session)
    (pathname : string) (cmsCheck : QueryResult cms.AccessReport) :
  carries cmsCheck ctx ->
  getSession (auth ctx) (headers (req ctx)) = inr (Some s) ->
  fault (db ctx) (SelectRoleNames (id (user s))) = None ->
  (CMSBarrier encodeURIComponent (SessionOf s') pathname cmsCheck = Children
   <-> allows adminProcedure ctx = true).
Proof.
  intros [Hp [He [report [Ho Hd]]]] Hs F.
  rewrite (checkAccess_run ctx s Hs) in Ho. simpl in Ho.
  destruct (fault (db ctx) (SelectRoleRecords (id (user s))));
    [discriminate |].
  injection Ho as <-.
  unfold CMSBarrier, dataIsAdmin, allows.
  rewrite Hp, He, Hd, (guard_admin_run ctx s Hs F). simpl.
  destruct (some _ _); simpl; split; congruence.
Qed.

End BarrierProperties.

Lemma CMSBarrier_matches_admin_gate_witness :
  CmsBarrier.CMSBarrier (fun x => x) (CmsBarrier.SessionOf (Seed.sessionOf "carol"))
    "/pages"
    (CmsBarrier.mkQueryResult false false
       (Some (cms.mkAccessReport false ["customer"; "support"])))
  = CmsBarrier.Children
  <-> allows adminProcedure (Seed.request "session=carol") = true.
Proof.
  apply (CMSBarrier_matches_admin_gate (fun x => x)
           (Seed.request "session=carol") (Seed.sessionOf "carol")).
  - split; [reflexivity |]. split; [reflexivity |].
    eexists. split; reflexivity.
  - reflexivity.
  - reflexivity.
Defined.

(** X12. The hooks are safe inside the barrier and refuse outside it.
    useCMSRoles returns (instead of throwing) exactly when the query data
    is present with isAdmin true, and then returns the roles of that
    data; so wherever the barrier renders the children the hook returns,
    and useHasRole answers by membership in those roles. *)
Theorem hooks_return_iff_admin_data
    (cmsCheck : CmsBarrier.QueryResult cms.AccessReport) :
  (forall roles,
     CmsBarrier.useCMSRoles cmsCheck = inr roles
     <-> exists report, CmsBarrier.data cmsCheck = Some report
                        /\ cms.isAdmin report = true
                        /\ cms.roles report = roles)
  /\ (forall enc session pathname,
        CmsBarrier.CMSBarrier enc session pathname cmsCheck
        = CmsBarrier.Children ->
        exists roles,
          CmsBarrier.useCMSRoles cmsCheck = inr roles
          /\ forall roleName,
               CmsBarrier.useHasRole roleName cmsCheck
               = inr (includes roles roleName)).
Proof.
  assert (A : forall roles,
     CmsBarrier.useCMSRoles cmsCheck = inr roles
     <-> exists report, CmsBarrier.data cmsCheck = Some report
                        /\ cms.isAdmin report = true
                        /\ cms.roles report = roles).
  { intros roles. unfold CmsBarrier.useCMSRoles.
    destruct (CmsBarrier.data cmsCheck) as [report |].
    - destruct (cms.isAdmin report) eqn:E; simpl.
      + split.
        * intros [= <-]. eauto.
        * intros [r [[= <-] [_ <-]]]. reflexivity.
      + split; [discriminate |].
        intros [r [[= <-] [H _]]]. congruence.
    - split; [discriminate | intros [r [H _]]; discriminate]. }
  split; [exact A |].
  intros enc session pathname H.
  apply barrier_children_data in H.
  destruct H as [_ [_ [_ [report [Hd Ha]]]]].
  exists (cms.roles report).
  assert (E : CmsBarrier.useCMSRoles cmsCheck = inr (cms.roles report))
    by (apply A; eauto).
  split; [exact E |].
  intros roleName. unfold CmsBarrier.useHasRole. now rewrite E.
Qed.

(** X13. What the client hooks say holds on the server.  When the query
    result carries the server's answer to checkAccess for a request:
    if useHasRole returns true for a role name, the caller holds a role
    of that name in the store; and if useIsSuperAdmin returns true, the
    permission-gated procedure lets the same request through for every
    permission name (provided the store answers the role select). *)
Theorem hooks_reflect_server_roles (ctx : TRPCContext) (s : Session)
    (cmsCheck : CmsBarrier.QueryResult cms.AccessReport) :
  CmsBarrier.carries cmsCheck ctx ->
  getSession (auth ctx) (headers (req ctx)) = inr (Some s) ->
  (forall roleName,
     CmsBarrier.useHasRole roleName cmsCheck = inr true ->
     holdsRole (tables (db ctx)) (id (user s)) roleName)
  /\ (CmsBarrier.useIsSuperAdmin cmsCheck = inr true ->
      fault (db ctx) (SelectRoleNames (id (user s))) = None ->
      forall p, allows (createPermissionProcedure p) ctx = true).
Proof.
  intros [Hp [He [report [Ho Hd]]]] Hs.
  rewrite (checkAccess_run ctx s Hs) in Ho. simpl in Ho.
  destruct (fault (db ctx) (SelectRoleRecords (id (user s))));
    [discriminate |].
  injection Ho as <-.
  assert (K : forall roleName,
            CmsBarrier.useHasRole roleName cmsCheck = inr true ->
            In roleName (selectRoleNames (tables (db ctx)) (id (user s)))).
  { intros roleName. unfold CmsBarrier.useHasRole, CmsBarrier.useCMSRoles.
    rewrite Hd. simpl. destruct (some _ _); simpl; [| discriminate].
    intros [= E]. now apply includes_In. }
  split.
  - intros roleName H. apply In_selectRoleNames. now apply K.
  - intros H F p. apply K in H.
    assert (Ea : some (selectRoleNames (tables (db ctx)) (id (user s)))
                      (includes Schema.ADMIN_ROLES) = true).
    { apply some_admin_spec. exists "super_admin".
      split; [assumption | now left]. }
    apply includes_In in H. unfold allows.
    now rewrite (guard_permission_bypass ctx s Hs p F Ea H).
Qed.

Lemma hooks_reflect_server_roles_witness :
  CmsBarrier.useIsSuperAdmin
    (CmsBarrier.mkQueryResult false false
       (Some (cms.mkAccessReport true ["super_admin"]))) = inr true
  /\ forall p,
       allows (createPermissionProcedure p) (Seed.request "session=alice")
       = true.
Proof.
  split; [reflexivity |].
  apply (proj2 (hooks_reflect_server_roles (Seed.request "session=alice")
                  (Seed.sessionOf "alice")
                  (CmsBarrier.mkQueryResult false false
                     (Some (cms.mkAccessReport true ["super_admin"])))
                  (conj eq_refl (conj eq_refl
                     (ex_intro _ _ (conj eq_refl eq_refl))))
                  eq_refl)
           eq_refl eq_refl).
Defined.

Lemma hooks_return_iff_admin_data_witness :
  exists roles,
    CmsBarrier.useCMSRoles
      (CmsBarrier.mkQueryResult false false
         (Some (cms.mkAccessReport true ["editor"; "content_manager"])))
    = inr roles
    /\ forall roleName,
         CmsBarrier.useHasRole roleName
           (CmsBarrier.mkQueryResult false false
              (Some (cms.mkAccessReport true ["editor"; "content_manager"])))
         = inr (includes roles roleName).
Proof.
  exact (proj2 (hooks_return_iff_admin_data
                  (CmsBarrier.mkQueryResult false false
                     (Some (cms.mkAccessReport true
                              ["editor"; "content_manager"]))))
           (fun x => x)
           (CmsBarrier.SessionOf (Seed.sessionOf "bob")) "/" eq_refl).
Defined.

(* ================================================================== *)
(** ** The CMS sidebar                                                 *)
(* ================================================================== *)

Lemma prefix_comparable a : forall b p,
  prefix a p = true -> prefix b p = true ->
  prefix a b = true \/ prefix b a = true.
Proof.
  induction a as [| x a IH]; intros b p Ha Hb;
    [left; now destruct b |].
  destruct b as [| y b]; [now right |].
  destruct p as [| z p]; [discriminate |].
  simpl in Ha, Hb |- *.
  destruct (Ascii.ascii_dec x z) as [-> |]; [| discriminate].
  destruct (Ascii.ascii_dec y z) as [-> |]; [| discriminate].
  destruct (Ascii.ascii_dec z z) as [_ | N]; [| now contradiction N].
  exact (IH b p Ha Hb).
Qed.

Lemma prefix_append a rest : prefix a (a ++ rest) = true.
Proof.
  induction a as [| x a IH]; [now destruct rest |]. simpl.
  destruct (Ascii.ascii_dec x x) as [_ | N]; [exact IH | now contradiction N].
Qed.

Lemma filter_at_most_one {A : Type} (P : A -> bool) (l : list A) :
  ForallOrdPairs (fun x y => P x = true -> P y = true -> False) l ->
  (length (filter P l) <= 1)%nat.
Proof.
  induction 1 as [| a l Ha Hl IH]; simpl; [lia |].
  destruct (P a) eqn:E; [| exact IH].
  assert (N : filter P l = []).
  { destruct (filter P l) as [| b rest] eqn:F; [reflexivity |].
    assert (Hb : In b (filter P l)) by (rewrite F; now left).
    apply filter_In in Hb. destruct Hb as [Hb Pb].
    rewrite Forall_forall in Ha. now destruct (Ha b Hb eq_refl Pb). }
  rewrite N. simpl. lia.
Qed.

Ltac two_active_items :=
  unfold CmsSidebar.isActive, CmsSidebar.startsWith; simpl;
  let H1 := fresh "Hfirst" in let H2 := fresh "Hsecond" in
  intros H1 H2;
  first
    [ apply String.eqb_eq in H1; subst; vm_compute in H2; discriminate H2
    | apply String.eqb_eq in H2; subst; vm_compute in H1; discriminate H1
    | let H := fresh "Hcmp" in
      destruct (prefix_comparable _ _ _ H1 H2) as [H | H];
      vm_compute in H; discriminate H ].

(** X14. Whatever the current pathname, at most one item of the sidebar
    is rendered as active; and on the url of an item, or on any path
    that extends the url of an item other than the Dashboard, exactly
    that item is active. *)
Theorem sidebar_highlights_one_item :
  (forall pathname,
     (length (CmsSidebar.activeItems pathname) <= 1)%nat)
  /\ (forall item rest,
        In item CmsSidebar.renderedItems ->
        CmsSidebar.url item <> "/" \/ rest = "" ->
        CmsSidebar.activeItems (CmsSidebar.url item ++ rest) = [item]).
Proof.
  assert (A : forall pathname,
            (length (CmsSidebar.activeItems pathname) <= 1)%nat).
  { intros pathname. unfold CmsSidebar.activeItems.
    apply filter_at_most_one.
    unfold CmsSidebar.renderedItems, CmsSidebar.cmsMenuItems,
      CmsSidebar.ecommerceMenuItems, CmsSidebar.settingsMenuItems.
    simpl app.
    repeat constructor. all: two_active_items. }
  split; [exact A |].
  intros item rest Hin Hrest.
  assert (Hact : CmsSidebar.isActive (CmsSidebar.url item ++ rest)
                   (CmsSidebar.url item) = true).
  { unfold CmsSidebar.isActive, CmsSidebar.startsWith.
    destruct (CmsSidebar.url item =? "") eqn:E0.
    - destruct (CmsSidebar.url item =? "/") eqn:E;
        [| apply prefix_append].
      apply String.eqb_eq in E. destruct Hrest as [N | ->]; [now contradiction N |].
      rewrite E. reflexivity.
    - destruct (CmsSidebar.url item =? "/") eqn:E;
        [| apply prefix_append].
      apply String.eqb_eq in E. destruct Hrest as [N | ->]; [now contradiction N |].
      rewrite E. reflexivity. }
  specialize (A (CmsSidebar.url item ++ rest)).
  unfold CmsSidebar.activeItems in *.
  assert (Hf : In item (filter
              (fun i => CmsSidebar.isActive (CmsSidebar.url item ++ rest)
                          (CmsSidebar.url i))
              CmsSidebar.renderedItems))
    by (apply filter_In; split; assumption).
  destruct (filter _ CmsSidebar.renderedItems) as [| a [| b l]].
  - destruct Hf.
  - destruct Hf as [-> | []]. reflexivity.
  - simpl in A. lia.
Qed.

Lemma sidebar_highlights_one_item_witness :
  CmsSidebar.activeItems "/pages/42/edit"
  = [CmsSidebar.mkMenuItem "Pages" "/pages" "FileText"].
Proof.
  apply (proj2 sidebar_highlights_one_item
           (CmsSidebar.mkMenuItem "Pages" "/pages" "FileText") "/42/edit").
  - simpl. tauto.
  - left. discriminate.
Defined.

(* ================================================================== *)
(** ** Role names under the key constraints                            *)
(* ================================================================== *)

Lemma NoDup_map_NoDup {A B : Type} (f : A -> B) (l : list A) :
  NoDup (map f l) -> NoDup l.
Proof.
  induction l as [| a l IH]; simpl; intros H; [constructor |].
  inversion H as [| x xs Hn Hd]; subst. constructor; [| now apply IH].
  intros Hin. apply Hn. now apply in_map.
Qed.

Lemma NoDup_map_inj_on {A B : Type} (f : A -> B) (l : list A) :
  NoDup l ->
  (forall x y, In x l -> In y l -> f x = f y -> x = y) ->
  NoDup (map f l).
Proof.
  induction l as [| a l IH]; simpl; intros Hnd Hinj; [constructor |].
  inversion Hnd as [| x xs Hn Hd]; subst. constructor.
  - intros Hin. apply in_map_iff in Hin. destruct Hin as [y [E Hy]].
    assert (y = a) by (apply Hinj; auto). subst. contradiction.
  - apply IH; [assumption |]. intros x y Hx Hy. apply Hinj; auto.
Qed.

Lemma NoDup_filter {A : Type} (P : A -> bool) (l : list A) :
  NoDup l -> NoDup (filter P l).
Proof.
  induction 1 as [| a l Hn Hd IH]; simpl; [constructor |].
  destruct (P a); [| exact IH]. constructor; [| exact IH].
  intros Hin. apply filter_In in Hin. tauto.
Qed.

Lemma NoDup_flat_map_disjoint {A B : Type} (f : A -> list B) (l : list A) :
  (forall x, In x l -> NoDup (f x)) ->
  ForallOrdPairs (fun x y => forall b, In b (f x) -> In b (f y) -> False) l ->
  NoDup (flat_map f l).
Proof.
  intros Hf Hd. induction Hd as [| a l Ha Hl IH]; simpl; [constructor |].
  apply NoDup_app.
  - apply Hf. now left.
  - apply IH. intros x Hx. apply Hf. now right.
  - intros b Hb Hin. apply in_flat_map in Hin. destruct Hin as [y [Hy Hby]].
    rewrite Forall_forall in Ha. exact (Ha y Hy b Hb Hby).
Qed.

Lemma ForallOrdPairs_filter {A : Type} (R : A -> A -> Prop) (P : A -> bool)
    (l : list A) :
  ForallOrdPairs R l -> ForallOrdPairs R (filter P l).
Proof.
  induction 1 as [| a l Ha Hl IH]; simpl; [constructor |].
  destruct (P a); [| exact IH]. constructor; [| exact IH].
  rewrite Forall_forall in *. intros x Hx. apply filter_In in Hx.
  apply Ha. tauto.
Qed.

Lemma NoDup_map_ForallOrdPairs {A B : Type} (f : A -> B) (l : list A) :
  NoDup (map f l) -> ForallOrdPairs (fun x y => f x <> f y) l.
Proof.
  induction l as [| a l IH]; simpl; intros H; [constructor |].
  inversion H as [| x xs Hn Hd]; subst. constructor; [| now apply IH].
  rewrite Forall_forall. intros y Hy E. apply Hn. rewrite E.
  now apply in_map.
Qed.

Lemma ForallOrdPairs_impl {A : Type} (R S : A -> A -> Prop) (l : list A) :
  (forall x y, In x l -> In y l -> R x y -> S x y) ->
  ForallOrdPairs R l -> ForallOrdPairs S l.
Proof.
  intros H Hr. induction Hr as [| a l Ha Hl IH]; [constructor |].
  constructor.
  - rewrite Forall_forall in *. intros y Hy.
    apply H; [now left | now right | now apply Ha].
  - apply IH. intros x y Hx Hy. apply H; now right.
Qed.

(** The role select as a projection of the Role rows joined to the
    caller's assignment rows. *)
Lemma selectRoleNames_by_assignment T uid :
  selectRoleNames T uid
  = map Schema.role_name
      (flat_map (fun ur =>
                   filter (fun r => Schema.role_id r =? Schema.ur_roleId ur)
                          (Schema.roles T))
                (assignmentsOf T uid)).
Proof.
  unfold selectRoleNames, userRoles_join_roles, assignmentsOf.
  induction (Schema.userRoles T) as [| ur l IH]; [reflexivity |].
  simpl. rewrite filter_app, map_app, IH. clear IH.
  destruct (Schema.ur_userId ur =? uid) eqn:E.
  - simpl. rewrite map_app. f_equal.
    induction (filter _ (Schema.roles T)) as [| r rs IHr]; [reflexivity |].
    simpl. rewrite E. simpl. now rewrite IHr.
  - replace (filter _ (map (fun r => (ur, r)) _)) with (@nil (Schema.UserRole * Schema.Role)).
    + reflexivity.
    + induction (filter _ (Schema.roles T)) as [| r rs IHr]; [reflexivity |].
      simpl. now rewrite E.
Qed.

Lemma selectRoleNames_NoDup T uid :
  keyConstraints T -> NoDup (selectRoleNames T uid).
Proof.
  intros [Hid [Hname [_ [_ [_ Hur]]]]].
  rewrite selectRoleNames_by_assignment.
  pose proof (NoDup_map_NoDup _ _ Hid) as Hroles.
  apply NoDup_map_inj_on.
  - apply NoDup_flat_map_disjoint.
    + intros ur _. now apply NoDup_filter.
    + unfold assignmentsOf.
      apply (ForallOrdPairs_impl
               (fun x y => Schema.ur_userId x = uid -> Schema.ur_userId y = uid
                           -> Schema.ur_roleId x <> Schema.ur_roleId y)).
      * intros x y Hx Hy Hxy r Hrx Hry.
        apply filter_In in Hx, Hy, Hrx, Hry.
        destruct Hx as [_ Ex], Hy as [_ Ey], Hrx as [_ Erx], Hry as [_ Ery].
        apply String.eqb_eq in Ex, Ey, Erx, Ery.
        apply (Hxy Ex Ey). congruence.
      * apply ForallOrdPairs_filter.
        apply (ForallOrdPairs_impl _ _ _
                 (fun x y _ _ (H : (Schema.ur_userId x, Schema.ur_roleId x)
                                   <> (Schema.ur_userId y, Schema.ur_roleId y))
                      Ex Ey E => H (f_equal2 pair (eq_trans Ex (eq_sym Ey)) E))).
        now apply NoDup_map_ForallOrdPairs.
  - intros x y Hx Hy E.
    apply in_flat_map in Hx, Hy.
    destruct Hx as [ux [_ Hx]], Hy as [uy [_ Hy]].
    apply filter_In in Hx, Hy. destruct Hx as [Hx _], Hy as [Hy _].
    clear - Hname Hx Hy E.
    induction (Schema.roles T) as [| r rs IH]; [destruct Hx |].
    simpl in Hname. inversion Hname as [| n ns Hn Hd]; subst.
    destruct Hx as [-> | Hx], Hy as [-> | Hy].
    + reflexivity.
    + exfalso. apply Hn. rewrite E. now apply in_map.
    + exfalso. apply Hn. rewrite <- E. now apply in_map.
    + now apply IH.
Qed.

(** X15. On tables that satisfy the key constraints of the schema,
    checkAccess (for a caller with a session and a store that answers)
    reports every role name the caller holds, and reports it once. *)
Theorem checkAccess_lists_each_role_once (ctx : TRPCContext) (s : Session) :
  getSession (auth ctx) (headers (req ctx)) = inr (Some s) ->
  fault (db ctx) (SelectRoleRecords (id (user s))) = None ->
  keyConstraints (tables (db ctx)) ->
  exists report,
    outcome (cms.checkAccess ctx) = inr report
    /\ NoDup (cms.roles report)
    /\ forall n, In n (cms.roles report)
                 <-> holdsRole (tables (db ctx)) (id (user s)) n.
Proof.
  intros Hs F K. rewrite (checkAccess_run ctx s Hs), F. simpl.
  eexists. split; [reflexivity |]. simpl. split.
  - now apply selectRoleNames_NoDup.
  - intros n. apply In_selectRoleNames.
Qed.

Lemma seed_keyConstraints : keyConstraints Seed.store.
Proof.
  repeat split; simpl; repeat constructor; simpl; intuition discriminate.
Qed.

Lemma checkAccess_lists_each_role_once_witness :
  exists report,
    outcome (cms.checkAccess (Seed.request "session=bob")) = inr report
    /\ NoDup (cms.roles report)
    /\ forall n, In n (cms.roles report) <-> holdsRole Seed.store "bob" n.
Proof.
  exact (checkAccess_lists_each_role_once (Seed.request "session=bob")
           (Seed.sessionOf "bob") eq_refl eq_refl seed_keyConstraints).
Defined.

(** X16. The roles checkAccess reports are provisioned roles: for a
    caller with a session and a store that answers both selects, every
    role name in the answer of checkAccess is the name of a row in the
    answer of listRoles. *)
Theorem checkAccess_roles_are_listed (ctx : TRPCContext) (s : Session) :
  getSession (auth ctx) (headers (req ctx)) = inr (Some s) ->
  fault (db ctx) (SelectRoleRecords (id (user s))) = None ->
  fault (db ctx) SelectAllRoles = None ->
  exists report allRoles,
    outcome (cms.checkAccess ctx) = inr report
    /\ outcome (cms.listRoles ctx) = inr allRoles
    /\ forall n, In n (cms.roles report) ->
                 exists rid description, In (rid, n, description) allRoles.
Proof.
  intros Hs F1 F2.
  rewrite (checkAccess_run ctx s Hs), (listRoles_run ctx s Hs), F1, F2.
  simpl. do 2 eexists. split; [reflexivity |]. split; [reflexivity |].
  simpl. intros n Hn. apply In_selectRoleNames in Hn.
  destruct Hn as [ur [r [_ [Hr [_ [_ En]]]]]].
  exists (Schema.role_id r), (Schema.role_description r).
  unfold selectAllRoles. apply in_map_iff. exists r. split; [| assumption].
  now rewrite En.
Qed.

Lemma checkAccess_roles_are_listed_witness :
  exists report allRoles,
    outcome (cms.checkAccess (Seed.request "session=carol")) = inr report
    /\ outcome (cms.listRoles (Seed.request "session=carol")) = inr allRoles
    /\ forall n, In n (cms.roles report) ->
                 exists rid description, In (rid, n, description) allRoles.
Proof.
  exact (checkAccess_roles_are_listed (Seed.request "session=carol")
           (Seed.sessionOf "carol") eq_refl eq_refl eq_refl).
Defined.

(* ================================================================== *)
(** ** The mobile auth handlers                                        *)
(* ================================================================== *)

Section MobileHandlers.
Import MobileAuth.
Variable auth : AuthClient.

Lemma isBlank_false s : isBlank s = false <-> s <> [].
Proof. destruct s; simpl; split; congruence. Qed.

Lemma isBlank_true s : isBlank s = true <-> s = [].
Proof. destruct s; simpl; split; congruence. Qed.

(** X17. handleSignUp sends a sign-up request to the auth client only
    for the values typed in, and only when name and email are not empty
    and the password has at least 8 code units; it sends at most one
    request per run. *)
Theorem handleSignUp_validates_before_calling
    (name email password : JsString) :
  (forall n e p,
     In (SignUpEmail n e p) (handleSignUp auth name email password) ->
     n = name /\ e = email /\ p = password
     /\ name <> [] /\ email <> []
     /\ (8 <= jsLength password)%nat)
  /\ (length (filter isAuthCall (handleSignUp auth name email password))
      <= 1)%nat.
Proof.
  unfold handleSignUp.
  destruct (isBlank name) eqn:En; simpl.
  { split; [intros n e p [H | []]; discriminate | simpl; lia]. }
  destruct (isBlank email) eqn:Ee; simpl.
  { split; [intros n e p [H | []]; discriminate | simpl; lia]. }
  destruct (isBlank password) eqn:Ep; simpl.
  { split; [intros n e p [H | []]; discriminate | simpl; lia]. }
  destruct (jsLength password <? 8)%nat eqn:El.
  { split; [intros n e p [H | []]; discriminate | simpl; lia]. }
  apply isBlank_false in En, Ee. apply Nat.ltb_ge in El.
  destruct (signUp_email auth name email password) as [[msg |] |]; simpl;
    (split; [| lia]);
    intros n e p H;
    repeat (destruct H as [H | H]; [try discriminate H |]);
    try contradiction;
    injection H as <- <- <-; repeat split; assumption.
Qed.

(** X18. No handler leaves the screen in the loading state: in every
    run of the five handlers, whatever the auth client answers, if
    loading is switched on then the last thing the handler does is to
    switch it off; and a run that fails validation neither switches it
    on nor calls the auth client. *)
Theorem loading_is_always_reset (name email password : JsString)
    (run : list UiEffect) :
  In run [handleLogin auth email password;
          handleGoogleLogin auth;
          handleSignUp auth name email password;
          handleGoogleSignUp auth;
          handleResetPassword auth email] ->
  (In (SetLoading true) run -> last run (SetLoading true) = SetLoading false)
  /\ (~ In (SetLoading true) run -> filter isAuthCall run = []).
Proof.
  intros H. simpl in H.
  repeat (destruct H as [H | H]; [subst run |]); try contradiction.
  - unfold handleLogin.
    destruct (isBlank email || isBlank password).
    + split; [intros [H | []]; discriminate | reflexivity].
    + destruct (signIn_email auth email password) as [[msg |] |]; simpl;
        (split; [reflexivity | intros N; exfalso; apply N; now left]).
  - unfold handleGoogleLogin.
    destruct (signIn_social auth "google"); simpl;
      (split; [reflexivity | intros N; exfalso; apply N; now left]).
  - unfold handleSignUp.
    destruct (isBlank name || isBlank email || isBlank password).
    + split; [intros [H | []]; discriminate | reflexivity].
    + destruct (jsLength password <? 8)%nat.
      * split; [intros [H | []]; discriminate | reflexivity].
      * destruct (signUp_email auth name email password) as [[msg |] |];
          simpl;
          (split; [reflexivity | intros N; exfalso; apply N; now left]).
  - unfold handleGoogleSignUp.
    destruct (signIn_social auth "google"); simpl;
      (split; [reflexivity | intros N; exfalso; apply N; now left]).
  - unfold handleResetPassword.
    destruct (isBlank email).
    + split; [intros [H | []]; discriminate | reflexivity].
    + destruct (forgetPassword auth email "/reset-password")
        as [[msg |] |]; simpl;
        (split; [reflexivity | intros N; exfalso; apply N; now left]).
Qed.

(** X19. handleLogin and handleSignUp navigate only after success, and
    always answer the user: a run replaces the route (with "/(tabs)")
    exactly when the fields pass validation (none empty and, for
    sign-up, a password of at least 8 code units) and the auth client
    resolved without an error; a run that does not navigate shows exactly
    one alert, and a run that navigates shows none. *)
Theorem navigation_only_after_success (name email password : JsString) :
  (forall href,
     In (RouterReplace href) (handleLogin auth email password)
     <-> href = "/(tabs)" /\ email <> [] /\ password <> []
         /\ signIn_email auth email password = Resolved None)
  /\ (forall href,
        In (RouterReplace href) (handleSignUp auth name email password)
        <-> href = "/(tabs)" /\ name <> [] /\ email <> [] /\ password <> []
            /\ (8 <= jsLength password)%nat
            /\ signUp_email auth name email password = Resolved None)
  /\ (forall run,
        In run [handleLogin auth email password;
                handleSignUp auth name email password] ->
        length (filter isAlert run)
        = if existsb (fun e => match e with
                               | RouterReplace _ => true
                               | _ => false
                               end) run
          then 0%nat else 1%nat).
Proof.
  split; [| split].
  - intros href. unfold handleLogin.
    destruct (isBlank email) eqn:Ee; simpl.
    { apply isBlank_true in Ee. split.
      - intros [H | []]; discriminate.
      - intros [_ [N _]]. contradiction. }
    destruct (isBlank password) eqn:Ep; simpl.
    { apply isBlank_true in Ep. split.
      - intros [H | []]; discriminate.
      - intros [_ [_ [N _]]]. contradiction. }
    apply isBlank_false in Ee, Ep.
    destruct (signIn_email auth email password) as [[msg |] |]; simpl; split;
      try (intros H;
           repeat (destruct H as [H | H]; [try discriminate H |]);
           try contradiction;
           injection H as <-; auto);
      try (intros [_ [_ [_ H]]]; discriminate H).
    intros [-> _]. auto.
  - intros href. unfold handleSignUp.
    destruct (isBlank name) eqn:En; simpl.
    { apply isBlank_true in En. split.
      - intros [H | []]; discriminate.
      - intros [_ [N _]]. contradiction. }
    destruct (isBlank email) eqn:Ee; simpl.
    { apply isBlank_true in Ee. split.
      - intros [H | []]; discriminate.
      - intros [_ [_ [N _]]]. contradiction. }
    destruct (isBlank password) eqn:Ep; simpl.
    { apply isBlank_true in Ep. split.
      - intros [H | []]; discriminate.
      - intros [_ [_ [_ [N _]]]]. contradiction. }
    destruct (jsLength password <? 8)%nat eqn:El.
    { apply Nat.ltb_lt in El. split.
      - intros [H | []]; discriminate.
      - intros [_ [_ [_ [_ [N _]]]]]. lia. }
    apply isBlank_false in En, Ee, Ep. apply Nat.ltb_ge in El.
    destruct (signUp_email auth name email password) as [[msg |] |];
      simpl; split;
      try (intros H;
           repeat (destruct H as [H | H]; [try discriminate H |]);
           try contradiction;
           injection H as <-; auto 10);
      try (intros [_ [_ [_ [_ [_ H]]]]]; discriminate H).
    intros [-> _]. auto.
  - intros run H. simpl in H.
    repeat (destruct H as [H | H]; [subst run |]); try contradiction.
    + unfold handleLogin.
      destruct (isBlank email || isBlank password); [reflexivity |].
      now destruct (signIn_email auth email password) as [[msg |] |].
    + unfold handleSignUp.
      destruct (isBlank name || isBlank email || isBlank password);
        [reflexivity |].
      destruct (jsLength password <? 8)%nat; [reflexivity |].
      now destruct (signUp_email auth name email password) as [[msg |] |].
Qed.

End MobileHandlers.

Lemma handleSignUp_validates_before_calling_witness :
  (MobileAuth.ofAscii "Ann" <> []
   /\ MobileAuth.ofAscii "ann@example.com" <> []
   /\ (8 <= MobileAuth.jsLength (MobileAuth.ofAscii "correct horse"))%nat)
  /\ MobileAuth.handleSignUp MobileAuth.accepting
       (MobileAuth.ofAscii "Ann") (MobileAuth.ofAscii "ann@example.com")
       [233; 233; 233; 233; 233]%N
     = [MobileAuth.AlertAlert "Error"
          "Password must be at least 8 characters"].
Proof.
  split; [| reflexivity].
  destruct (proj1 (handleSignUp_validates_before_calling MobileAuth.accepting
                     (MobileAuth.ofAscii "Ann")
                     (MobileAuth.ofAscii "ann@example.com")
                     (MobileAuth.ofAscii "correct horse"))
              (MobileAuth.ofAscii "Ann")
              (MobileAuth.ofAscii "ann@example.com")
              (MobileAuth.ofAscii "correct horse")
              (or_intror (or_introl eq_refl)))
    as [_ [_ [_ H]]].
  exact H.
Defined.

Lemma loading_is_always_reset_witness :
  last (MobileAuth.handleSignUp MobileAuth.unreachable
          (MobileAuth.ofAscii "Ann") (MobileAuth.ofAscii "ann@example.com")
          (MobileAuth.ofAscii "correct horse"))
       (MobileAuth.SetLoading true)
  = MobileAuth.SetLoading false.
Proof.
  apply (proj1 (loading_is_always_reset MobileAuth.unreachable
                  (MobileAuth.ofAscii "Ann")
                  (MobileAuth.ofAscii "ann@example.com")
                  (MobileAuth.ofAscii "correct horse") _
                  (or_intror (or_intror (or_introl eq_refl))))).
  simpl. tauto.
Defined.

Lemma navigation_only_after_success_witness :
  In (MobileAuth.RouterReplace "/(tabs)")
     (MobileAuth.handleLogin MobileAuth.accepting
        (MobileAuth.ofAscii "ann@example.com") (MobileAuth.ofAscii "pw"))
  /\ ~ In (MobileAuth.RouterReplace "/(tabs)")
         (MobileAuth.handleSignUp MobileAuth.accepting
            (MobileAuth.ofAscii "Ann")
            (MobileAuth.ofAscii "ann@example.com")
            [233; 233; 233; 233; 233]%N).
Proof.
  split.
  - apply (proj1 (navigation_only_after_success MobileAuth.accepting
                    [] (MobileAuth.ofAscii "ann@example.com")
                    (MobileAuth.ofAscii "pw")) "/(tabs)").
    repeat split; discriminate.
  - intros H.
    apply (proj1 (proj2 (navigation_only_after_success MobileAuth.accepting
                           (MobileAuth.ofAscii "Ann")
                           (MobileAuth.ofAscii "ann@example.com")
                           [233; 233; 233; 233; 233]%N)) "/(tabs)") in H.
    destruct H as [_ [_ [_ [_ [H _]]]]]. simpl in H. lia.
Defined.
